(** * Autoscaling demo harness: [load-generator/demo_scenarios.py]

    A shallow embedding of the demo driver and the properties of its
    monitor, its cluster status queries, its scenarios and its report.

    Conventions of the embedding.
    - A Python [str] is a Rocq [string]; a character stands for the code
      point of the same number, so the model covers text whose code points
      are below 256 (kubectl prints ASCII for the queries used here).
    - A Python [int] is a [Z]; a [float] number of seconds is a [Q].
    - A [dict] is a [gmap] from its keys.
    - A call that may raise, or block for ever, returns a [res]. *)

From Stdlib Require Import ZArith QArith Lqa Lia Bool.
From Stdlib Require Import Ascii String DecimalString DecimalZ DecimalN DecimalPos.
From stdpp Require Import base option list gmap strings.

Local Open Scope string_scope.
Local Open Scope list_scope.
Local Open Scope Z_scope.

(** ** Outcomes of a call *)

Inductive exn : Type :=
| ValueError          (* int() of a text that is no integer literal *)
| FileNotFoundError   (* the executable or the file does not exist *)
| OtherError.         (* any other exception (JSONDecodeError, KeyError, ...) *)

Inductive res (A : Type) : Type :=
| Ret (a : A)         (* the call returns a *)
| Raise (e : exn)     (* the call raises e *)
| Blocks              (* the call never returns *)
| NoScript.           (* the environment script of the model ran out *)

Arguments Ret {A} a.
Arguments Raise {A} e.
Arguments Blocks {A}.
Arguments NoScript {A}.

Definition returns {A : Type} (r : res A) : bool :=
  match r with Ret _ => true | _ => false end.

(** ** Python text primitives *)

Module Py.

Definition code (c : ascii) : N := N_of_ascii c.

(** [str.isspace] on one character (code points below 256). *)
Definition isspace (c : ascii) : bool :=
  match code c with
  | 9 | 10 | 11 | 12 | 13 | 28 | 29 | 30 | 31 | 32 | 133 | 160 => true
  | _ => false
  end%N.

Fixpoint lstrip (s : string) : string :=
  match s with
  | "" => ""
  | String c s' => if isspace c then lstrip s' else s
  end.

Fixpoint rstrip (s : string) : string :=
  match s with
  | "" => ""
  | String c s' =>
      match rstrip s' with
      | "" => if isspace c then "" else String c ""
      | r => String c r
      end
  end.

(** [s.strip()] *)
Definition strip (s : string) : string := rstrip (lstrip s).

(** [s.split(sep)] for a separator of one character. *)
Fixpoint split (sep : ascii) (s : string) : list string :=
  match s with
  | "" => [""]
  | String c s' =>
      if Ascii.eqb c sep then "" :: split sep s'
      else match split sep s' with
           | w :: ws => String c w :: ws
           | [] => [String c ""]
           end
  end.

(** [sep.join(parts)] *)
Fixpoint join (sep : string) (parts : list string) : string :=
  match parts with
  | [] => ""
  | [p] => p
  | p :: ps => p +:+ sep +:+ join sep ps
  end.

(** [s * n] *)
Fixpoint repeat_str (s : string) (n : nat) : string :=
  match n with
  | O => ""
  | S n' => s +:+ repeat_str s n'
  end.

(** [format(s, "<n")]: pad with spaces on the right up to width n. *)
Definition ljust (n : nat) (s : string) : string :=
  s +:+ repeat_str " " (n - String.length s).

(** [str(z)] *)
Definition str (z : Z) : string := NilZero.string_of_int (Z.to_int z).

(** *** [int(s)]

    CPython strips white space on both sides, reads an optional sign and
    then decimal digits, where one underscore may stand between two
    digits. White space for [int] is the ASCII set together with the
    non-ASCII spaces (133 and 160 below 256); the separators 28 to 31,
    which [strip] removes, are not accepted. A literal of more than
    [max_str_digits] digits is refused. *)

Definition int_isspace (c : ascii) : bool :=
  match code c with
  | 9 | 10 | 11 | 12 | 13 | 32 | 133 | 160 => true
  | _ => false
  end%N.

Fixpoint int_lstrip (s : string) : string :=
  match s with
  | "" => ""
  | String c s' => if int_isspace c then int_lstrip s' else s
  end.

Fixpoint int_rstrip (s : string) : string :=
  match s with
  | "" => ""
  | String c s' =>
      match int_rstrip s' with
      | "" => if int_isspace c then "" else String c ""
      | r => String c r
      end
  end.

Definition digit_val (c : ascii) : option Z :=
  let n := code c in
  if ((48 <=? n) && (n <=? 57))%N then Some (Z.of_N n - 48) else None.

Definition max_str_digits : nat := 4300.

(** Digits with underscores: [acc] is the value read so far, [n] the
    number of digits read so far, [prev] tells whether the previous
    character was a digit. The result is the value and the digit count. *)
Fixpoint read_digits (acc : Z) (n : nat) (prev : bool) (s : string)
  : option (Z * nat) :=
  match s with
  | "" => if prev then Some (acc, n) else None
  | String c s' =>
      match digit_val c with
      | Some d => read_digits (10 * acc + d) (S n) true s'
      | None =>
          if Ascii.eqb c "_" && prev then read_digits acc n false s'
          else None
      end
  end.

Definition int_unsigned (s : string) : res Z :=
  match read_digits 0 0 false s with
  | Some (v, n) => if (n <=? max_str_digits)%nat then Ret v else Raise ValueError
  | None => Raise ValueError
  end.

Definition int (s : string) : res Z :=
  match int_rstrip (int_lstrip s) with
  | String "-" s' =>
      match int_unsigned s' with
      | Ret v => Ret (- v)
      | r => r
      end
  | String "+" s' => int_unsigned s'
  | s' => int_unsigned s'
  end.

End Py.

(** ** Observable effects and the monad of the embedding *)

Inductive event : Type :=
| Print (line : string)                   (* print(line) *)
| LogKubectlError (argv : list string) (code : Z)
                                          (* print(f"Error running kubectl: {e}") *)
| Exec (argv : list string)               (* subprocess.run(argv): a child run to its exit *)
| Popen (pid : nat) (argv : list string)  (* subprocess.Popen(argv), the child is pid *)
| Terminate (pid : nat)                   (* Popen.terminate(): SIGTERM is sent to pid *)
| Sleep (seconds : Q)                     (* time.sleep / asyncio.sleep *)
| CreateTask (i : nat) (url : string) (iterations : Z)
                                          (* asyncio.create_task(session.post(url, json=...)) *)
| Gather (n : nat) (return_exceptions : bool)
                                          (* await asyncio.gather over the n tasks *)
| Hist (row col : nat) (title : string) (avg_ms : Q) (points_ms : list Q)
                                          (* ax.hist on axes[row, col] and its title *)
| Savefig (file : string).                (* plt.savefig(file) *)

(** A computation is the list of the effects it performs and its outcome. *)
Definition io (A : Type) : Type := list event * res A.

Definition ret {A : Type} (a : A) : io A := ([], Ret a).
Definition raise {A : Type} (e : exn) : io A := ([], Raise e).
Definition emit (e : event) : io unit := ([e], Ret tt).
Definition emits (es : list event) : io unit := (es, Ret tt).
Definition lift {A : Type} (r : res A) : io A := ([], r).

Definition bind {A B : Type} (m : io A) (k : A -> io B) : io B :=
  match m with
  | (es, Ret a) => let '(es', r) := k a in (es ++ es', r)
  | (es, Raise e) => (es, Raise e)
  | (es, Blocks) => (es, Blocks)
  | (es, NoScript) => (es, NoScript)
  end.

Declare Scope io_scope.
Delimit Scope io_scope with io.
Notation "x <- m ;; k" := (bind m (fun x => k))
  (at level 100, m at next level, right associativity) : io_scope.
Notation "m ;;; k" := (bind m (fun _ => k))
  (at level 100, right associativity) : io_scope.
Local Open Scope io_scope.

Definition effects {A : Type} (m : io A) : list event := fst m.
Definition outcome {A : Type} (m : io A) : res A := snd m.

(** ** The control plane seen through kubectl *)

(** What one kubectl child process does, as the environment decides it. *)
Inductive proc_outcome : Type :=
| Exited (code : Z) (stdout : string)   (* the child exits with this status and output *)
| SpawnFails                            (* no such executable *)
| NeverExits.                           (* the child hangs *)

Record AutoscalingDemo : Type := {
  app_url : string;
  kubectl_context : option string;
  kubectl_cmd : list string
}.

Definition truthy (s : string) : bool :=
  match s with "" => false | _ => true end.

(** [AutoscalingDemo.__init__] *)
Definition new_demo (url : string) (ctx : option string) : AutoscalingDemo :=
  {| app_url := url;
     kubectl_context := ctx;
     kubectl_cmd :=
       match ctx with
       | Some c => if truthy c then ["kubectl"; "--context"; c] else ["kubectl"]
       | None => ["kubectl"]
       end |}.

(** [run_kubectl]: only [CalledProcessError] (a non-zero exit status under
    [check=True]) is caught; no timeout is passed to [subprocess.run]. *)
Definition run_kubectl (self : AutoscalingDemo) (cmd : list string)
    (reply : proc_outcome) : io string :=
  let full_cmd := kubectl_cmd self ++ cmd in
  emit (Exec full_cmd) ;;;
  match reply with
  | Exited code stdout =>
      if code =? 0 then ret (Py.strip stdout)
      else emit (LogKubectlError full_cmd code) ;;; ret ""
  | SpawnFails => raise FileNotFoundError
  | NeverExits => lift Blocks
  end.

Definition pods_query : list string :=
  ["get"; "pods"; "-n"; "cloudapp"; "-l"; "app=cloudapp";
   "--field-selector"; "status.phase=Running"; "--no-headers"].

Definition hpa_query : list string :=
  ["get"; "hpa"; "-n"; "cloudapp"; "cloudapp-hpa"; "-o";
   "jsonpath={.status.currentReplicas},{.status.desiredReplicas},{.status.currentCPUUtilizationPercentage}"].

Definition newline : ascii := "010"%char.

(** [get_pod_count] *)
Definition get_pod_count (self : AutoscalingDemo) (reply : proc_outcome) : io Z :=
  output <- run_kubectl self pods_query reply ;;
  ret (if truthy output then Z.of_nat (length (Py.split newline output)) else 0).

(** [parts[i]] *)
Definition getitem (parts : list string) (i : nat) : io string :=
  match parts !! i with
  | Some p => ret p
  | None => raise OtherError
  end.

Definition hpa_sample (current desired cpu : Z) : gmap string Z :=
  {[ "current_replicas" := current;
     "desired_replicas" := desired;
     "cpu_utilization" := cpu ]}.

(** [int(parts[i]) if guard and parts[i] else 0] *)
Definition hpa_field (parts : list string) (i : nat) (guard : bool) : io Z :=
  if guard then
    p <- getitem parts i ;;
    if truthy p then (p' <- getitem parts i ;; lift (Py.int p')) else ret 0
  else ret 0.

(** [get_hpa_status] *)
Definition get_hpa_status (self : AutoscalingDemo) (reply : proc_outcome)
    : io (gmap string Z) :=
  output <- run_kubectl self hpa_query reply ;;
  if truthy output then
    let parts := Py.split "," output in
    current <- hpa_field parts 0 true ;;
    desired <- hpa_field parts 1 (1 <? length parts)%nat ;;
    cpu <- hpa_field parts 2 (2 <? length parts)%nat ;;
    ret (hpa_sample current desired cpu)
  else ret (hpa_sample 0 0 0).

(** ** The monitor *)

(** [d[key]] on a dict *)
Definition dict_get (d : gmap string Z) (key : string) : io Z :=
  match d !! key with
  | Some v => ret v
  | None => raise OtherError
  end.

(** The conditional expression of [monitor_scaling] that names the state. *)
Definition status_label (hpa_status : gmap string Z) : io string :=
  desired <- dict_get hpa_status "desired_replicas" ;;
  current <- dict_get hpa_status "current_replicas" ;;
  if desired >? current then ret "Scaling Up"
  else
    desired' <- dict_get hpa_status "desired_replicas" ;;
    current' <- dict_get hpa_status "current_replicas" ;;
    if desired' <? current' then ret "Scaling Down" else ret "Stable".

(** What the environment answers during one turn of the polling loop. *)
Record tick : Type := {
  now : Q;                     (* time.time() at the loop test *)
  pods_reply : proc_outcome;   (* the kubectl child of get_pod_count *)
  hpa_reply : proc_outcome;    (* the kubectl child of get_hpa_status *)
  wall : string                (* datetime.now().strftime("%H:%M:%S") *)
}.

Definition monitor_header : list event :=
  [ Print (String newline (Py.repeat_str "=" 60));
    Print "KUBERNETES AUTOSCALING MONITOR";
    Print (Py.repeat_str "=" 60);
    Print (Py.ljust 20 "Time" +:+ " " +:+ Py.ljust 6 "Pods" +:+ " "
           +:+ Py.ljust 6 "CPU%" +:+ " " +:+ Py.ljust 8 "Desired" +:+ " " +:+ "Status");
    Print (Py.repeat_str "-" 60) ].

Definition status_line (current_time : string) (pod_count cpu desired : Z)
    (status : string) : string :=
  Py.ljust 20 current_time +:+ " " +:+ Py.ljust 6 (Py.str pod_count) +:+ " "
  +:+ Py.ljust 6 (Py.str cpu) +:+ " " +:+ Py.ljust 8 (Py.str desired) +:+ " " +:+ status.

(** The body of the [while] loop. *)
Definition poll (self : AutoscalingDemo) (t : tick) : io unit :=
  pod_count <- get_pod_count self (pods_reply t) ;;
  hpa_status <- get_hpa_status self (hpa_reply t) ;;
  status <- status_label hpa_status ;;
  cpu <- dict_get hpa_status "cpu_utilization" ;;
  desired <- dict_get hpa_status "desired_replicas" ;;
  emit (Print (status_line (wall t) pod_count cpu desired status)) ;;;
  emit (Sleep 10).

(** The loop test [time.time() - start_time < duration]. *)
Definition in_time (start_time : Q) (duration : Z) (t : Q) : bool :=
  if Qlt_le_dec (t - start_time) (inject_Z duration) then true else false.

Fixpoint monitor_loop (self : AutoscalingDemo) (start_time : Q) (duration : Z)
    (script : list tick) : io unit :=
  match script with
  | [] => lift NoScript
  | t :: script' =>
      if in_time start_time duration (now t)
      then poll self t ;;; monitor_loop self start_time duration script'
      else ret tt
  end.

(** [monitor_scaling]: [start_time] is the first reading of the clock. *)
Definition monitor_scaling (self : AutoscalingDemo) (duration : Z)
    (start_time : Q) (script : list tick) : io unit :=
  emits monitor_header ;;;
  monitor_loop self start_time duration script.

(** ** Processes

    A scenario starts the monitor as a child process ([subprocess.Popen] of
    this very script with the command [monitor]) and later calls
    [Popen.terminate], which sends SIGTERM and returns at once; the
    scenarios never call [Popen.wait]. The kernel delivers the signal at a
    moment of its own, so the model keeps the children, a pending signal per
    child and the order of what the main process and the children do. *)

Inductive obs : Type :=
| Main (e : event)                (* done by the orchestrating process *)
| Child (pid : nat) (e : event).  (* done by the monitor child pid *)

Inductive pstate : Type :=
| Starting                        (* spawned, monitor_scaling not yet entered *)
| Running (start_time : Q) (todo : list event) (next : res unit)
    (* in the loop: the effects of the current turn still to perform and
       how the turn ends *)
| Hung                            (* waits for a kubectl child that never exits *)
| Dead.                           (* exited or killed *)

Record proc : Type := {
  p_demo : AutoscalingDemo;
  p_duration : Z;
  p_state : pstate;
  p_sigterm : bool                (* SIGTERM sent and not yet delivered *)
}.

Definition with_state (p : proc) (s : pstate) : proc :=
  {| p_demo := p_demo p; p_duration := p_duration p;
     p_state := s; p_sigterm := p_sigterm p |}.

Definition signalled (p : proc) : proc :=
  {| p_demo := p_demo p; p_duration := p_duration p;
     p_state := p_state p; p_sigterm := true |}.

Definition killed (p : proc) : proc :=
  {| p_demo := p_demo p; p_duration := p_duration p;
     p_state := Dead; p_sigterm := false |}.

Definition option_like (s : string) : bool :=
  match s with
  | String "-" _ => true
  | _ => false
  end.

(** The child that [main] makes of the command line the scenarios build:
    [exe script monitor --url u --duration d]. The value of [--duration]
    goes through [int] (argparse [type=int]); a command line that argparse
    refuses gives a child that exits at once. *)
Definition spawn_monitor (argv : list string) : proc :=
  match argv with
  | [_; _; cmd; f1; u; f2; d] =>
      match Py.int d with
      | Ret z =>
          if String.eqb cmd "monitor" && String.eqb f1 "--url"
             && String.eqb f2 "--duration" && negb (option_like u)
          then {| p_demo := new_demo u None; p_duration := z;
                  p_state := Starting; p_sigterm := false |}
          else {| p_demo := new_demo u None; p_duration := z;
                  p_state := Dead; p_sigterm := false |}
      | _ => {| p_demo := new_demo u None; p_duration := 0;
                p_state := Dead; p_sigterm := false |}
      end
  | _ => {| p_demo := new_demo "" None; p_duration := 0;
            p_state := Dead; p_sigterm := false |}
  end.

(** One move of a monitor child: it performs the next effect of the turn it
    is in, or, between two turns, evaluates the loop test on the clock. *)
Definition turn (p : proc) (t : tick) : proc * list event :=
  match p_state p with
  | Starting => (with_state p (Running (now t) [] (Ret tt)), monitor_header)
  | Running start [] (Ret _) =>
      if in_time start (p_duration p) (now t)
      then let '(es, r) := poll (p_demo p) t in (with_state p (Running start es r), [])
      else (with_state p Dead, [])
  | Running start [] Blocks => (with_state p Hung, [])
  | Running start [] _ => (with_state p Dead, [])
  | Running start (e :: es) r => (with_state p (Running start es r), [e])
  | Hung => (p, [])
  | Dead => (p, [])
  end.

(** What happens beside the main process. *)
Inductive bg : Type :=
| MonitorTurn (pid : nat) (t : tick)  (* the child pid makes one move *)
| Deliver (pid : nat).                (* the kernel delivers the pending SIGTERM *)

Record world : Type := {
  procs : gmap nat proc;
  next_pid : nat;
  calls : nat;          (* calls made by the main process so far *)
  trace : list obs
}.

Definition init_world : world :=
  {| procs := ∅; next_pid := 0; calls := 0; trace := [] |}.

Definition set_proc (w : world) (pid : nat) (p : proc) : world :=
  {| procs := <[pid := p]> (procs w); next_pid := next_pid w;
     calls := calls w; trace := trace w |}.

Definition log (w : world) (os : list obs) : world :=
  {| procs := procs w; next_pid := next_pid w;
     calls := calls w; trace := trace w ++ os |}.

Definition bg_step (w : world) (b : bg) : world :=
  match b with
  | MonitorTurn pid t =>
      match procs w !! pid with
      | Some p => let '(p', es) := turn p t in log (set_proc w pid p') (map (Child pid) es)
      | None => w
      end
  | Deliver pid =>
      match procs w !! pid with
      | Some p => if p_sigterm p then set_proc w pid (killed p) else w
      | None => w
      end
  end.

Definition bg_run (w : world) (bs : list bg) : world := fold_left bg_step bs w.

(** The environment of one run of the main process. *)
Inductive task_outcome : Type :=
| Responds (status : Z)    (* the POST gets an answer *)
| Fails (e : exn)          (* the POST raises *)
| NeverSettles.

Record result_row : Type := { status_code : Z; response_time : Q }.

(** A results file as [json.load] returns it: [stats] is [None] for an
    empty (falsy) object, else its average_response_time. *)
Record results_json : Type := { stats : option Q; results : list result_row }.

Inductive file : Type :=
| Json (d : results_json)
| Broken.   (* there, but json.load or a key lookup raises on it *)

Record Env : Type := {
  executable : string;                (* sys.executable *)
  script : string;                    (* __file__ *)
  background : nat -> list bg;        (* what happens before the n-th call of main *)
  load_reply : nat -> proc_outcome;   (* the child of the n-th call, a subprocess.run *)
  post_reply : nat -> task_outcome;   (* the i-th request of the burst *)
  files : gmap string file;           (* the working directory *)
  start_clock : Q;                    (* for the command monitor run in process *)
  ticks : list tick
}.

(** The main process: a state and error monad over the world. *)
Definition prog (A : Type) : Type := Env -> world -> res A * world.

Definition pret {A : Type} (a : A) : prog A := fun _ w => (Ret a, w).

Definition pbind {A B : Type} (m : prog A) (k : A -> prog B) : prog B :=
  fun env w =>
    match m env w with
    | (Ret a, w') => k a env w'
    | (Raise e, w') => (Raise e, w')
    | (Blocks, w') => (Blocks, w')
    | (NoScript, w') => (NoScript, w')
    end.

Declare Scope prog_scope.
Delimit Scope prog_scope with prog.
Notation "x <- m ;; k" := (pbind m (fun x => k))
  (at level 100, m at next level, right associativity) : prog_scope.
Notation "m ;;; k" := (pbind m (fun _ => k))
  (at level 100, right associativity) : prog_scope.

(** Every call of the main process lets the background run first. *)
Definition enter (env : Env) (w : world) : world :=
  let w' := bg_run w (background env (calls w)) in
  {| procs := procs w'; next_pid := next_pid w';
     calls := S (calls w'); trace := trace w' |}.

(** [print(line)] *)
Definition print (line : string) : prog unit :=
  fun env w => (Ret tt, log (enter env w) [Main (Print line)]).

(** [asyncio.sleep(seconds)] *)
Definition sleep (seconds : Q) : prog unit :=
  fun env w => (Ret tt, log (enter env w) [Main (Sleep seconds)]).

(** [subprocess.Popen(argv)] *)
Definition popen (argv : list string) : prog nat :=
  fun env w =>
    let w1 := enter env w in
    let pid := next_pid w1 in
    (Ret pid,
     {| procs := <[pid := spawn_monitor argv]> (procs w1);
        next_pid := S pid; calls := calls w1;
        trace := trace w1 ++ [Main (Popen pid argv)] |}).

(** [subprocess.run(argv)] without [check]: the exit status is ignored. *)
Definition subprocess_run (argv : list string) : prog unit :=
  fun env w =>
    let n := calls w in
    let w1 := log (enter env w) [Main (Exec argv)] in
    match load_reply env n with
    | Exited _ _ => (Ret tt, w1)
    | SpawnFails => (Raise FileNotFoundError, w1)
    | NeverExits => (Blocks, w1)
    end.

(** [monitor_process.terminate()]: SIGTERM is sent unless the child is
    known to have exited; the call does not wait. *)
Definition terminate (pid : nat) : prog unit :=
  fun env w =>
    let w1 := log (enter env w) [Main (Terminate pid)] in
    match procs w1 !! pid with
    | Some p =>
        match p_state p with
        | Dead => (Ret tt, w1)
        | _ => (Ret tt, set_proc w1 pid (signalled p))
        end
    | None => (Ret tt, w1)
    end.

(** A computation of the main process alone, done as one call. *)
Definition run_io {A : Type} (m : Env -> io A) : prog A :=
  fun env w =>
    let '(es, r) := m env in
    (r, log (enter env w) (map Main es)).

(** ** The burst of scenario 4 *)

Definition cpu_endpoint (url : string) : string := url +:+ "/api/cpu-intensive".

(** The [for] loop over [range(n)], from iteration [i] on: a task is created
    and appended, then the loop sleeps. The result is the list [tasks]. *)
Fixpoint launch (url : string) (i n : nat) : io (list nat) :=
  match n with
  | O => ret []
  | S n' =>
      emit (CreateTask i (cpu_endpoint url) 500000) ;;;
      emit (Sleep (1 # 10)) ;;;
      tasks <- launch url (S i) n' ;;
      ret (i :: tasks)
  end.

Definition never_settles (o : task_outcome) : bool :=
  match o with NeverSettles => true | _ => false end.

Definition as_value (o : task_outcome) : Z + exn :=
  match o with
  | Responds status => inl status
  | Fails e => inr e
  | NeverSettles => inr OtherError
  end.

Fixpoint first_failure (outs : list task_outcome) : option exn :=
  match outs with
  | [] => None
  | Fails e :: _ => Some e
  | _ :: outs' => first_failure outs'
  end.

(** [asyncio.gather]: with [return_exceptions] an exception of a task is
    one of the results; without it the exception is raised to the caller
    (the first one in the order of the tasks here). *)
Definition gather (return_exceptions : bool) (outs : list task_outcome)
    : res (list (Z + exn)) :=
  if return_exceptions then
    if existsb never_settles outs then Blocks else Ret (map as_value outs)
  else
    match first_failure outs with
    | Some e => Raise e
    | None => if existsb never_settles outs then Blocks else Ret (map as_value outs)
    end.

Definition request_count : nat := 50.

(** [cpu_intensive_load] *)
Definition cpu_intensive_load (url : string) (reply : nat -> task_outcome)
    : io (list (Z + exn)) :=
  tasks <- launch url 0 request_count ;;
  emit (Gather (length tasks) true) ;;;
  lift (gather true (map reply tasks)).

(** ** The report *)

Definition scenarios : list (string * string) :=
  [ ("scenario1_results.json", "Gradual Ramp");
    ("scenario2_results.json", "Load Spikes");
    ("scenario3_results.json", "Sustained Load") ].

Definition not_found_message (filename : string) : string :=
  "Results file " +:+ filename +:+ " not found".

Definition response_times_ms (rows : list result_row) : list Q :=
  map (fun r => (response_time r * 1000)%Q)
      (filter (fun r => status_code r < 400) rows).

(** The body of the loop over [enumerate(scenarios)], with its [try]. *)
Definition report_entry (fs : gmap string file) (i : nat)
    (entry : string * string) : io unit :=
  let '(filename, title) := entry in
  match fs !! filename with
  | None => emit (Print (not_found_message filename))
  | Some Broken => raise OtherError
  | Some (Json data) =>
      match stats data with
      | Some avg =>
          if (i <? 3)%nat
          then emit (Hist (i / 2) (i mod 2) title (avg * 1000)%Q
                          (response_times_ms (results data)))
          else ret tt
      | None => ret tt
      end
  end.

Fixpoint for_enumerate {A : Type} (i : nat) (l : list A)
    (body : nat -> A -> io unit) : io unit :=
  match l with
  | [] => ret tt
  | x :: l' => body i x ;;; for_enumerate (S i) l' body
  end.

Definition report_file : string := "autoscaling_demo_report.png".

(** [generate_demo_report] *)
Definition generate_demo_report (fs : gmap string file) : io unit :=
  emit (Print (String newline " GENERATING DEMO REPORT")) ;;;
  emit (Print (Py.repeat_str "=" 50)) ;;;
  for_enumerate 0 scenarios (report_entry fs) ;;;
  emit (Savefig report_file) ;;;
  emit (Print ("Demo report saved to: " +:+ report_file)).

(** ** The scenarios *)

Local Open Scope prog_scope.

Inductive scenario_id : Type := S1 | S2 | S3 | S4.

(** The arguments after [sys.executable, __file__] of the monitor child. *)
Definition monitor_args (k : scenario_id) (url : string) : list string :=
  ["monitor"; "--url"; url; "--duration";
   match k with S1 => "600" | S2 => "480" | S3 => "300" | S4 => "180" end].

(** The command line of the load generator, for the scenarios that run one. *)
Definition load_argv (k : scenario_id) (url : string) : option (list string) :=
  match k with
  | S1 => Some ["python"; "load_generator.py"; "--url"; url;
                "--test-type"; "ramp"; "--start-rps"; "5"; "--end-rps"; "100";
                "--duration"; "600"; "--output"; "scenario1_results.json"; "--charts"]
  | S2 => Some ["python"; "load_generator.py"; "--url"; url;
                "--test-type"; "spike"; "--rps"; "10"; "--spike-rps"; "150";
                "--spike-duration"; "60"; "--duration"; "480";
                "--output"; "scenario2_results.json"; "--charts"]
  | S3 => Some ["python"; "load_generator.py"; "--url"; url;
                "--test-type"; "constant"; "--rps"; "80"; "--duration"; "300";
                "--output"; "scenario3_results.json"; "--charts"]
  | S4 => None
  end.

Definition popen_monitor (k : scenario_id) (url : string) : prog nat :=
  fun env w => popen ([executable env; script env] ++ monitor_args k url) env w.

(** The four scenario functions have one shape: four lines of banner, the
    monitor child, a line, the load, [terminate], a line. Their texts: *)
Definition title (k : scenario_id) : string :=
  match k with
  | S1 => " SCENARIO 1: Gradual Load Increase (Scale-Out Demo)"
  | S2 => " SCENARIO 2: Load Spikes (Rapid Scaling Demo)"
  | S3 => " SCENARIO 3: Sustained High Load (Stability Demo)"
  | S4 => " SCENARIO 4: CPU-Intensive Load (CPU-Based Scaling)"
  end.

Definition purpose (k : scenario_id) : string :=
  match k with
  | S1 => "This scenario gradually increases load to trigger pod scaling"
  | S2 => "This scenario sends periodic load spikes to test rapid scaling"
  | S3 => "This scenario maintains high load to test scaling stability"
  | S4 => "This scenario sends CPU-intensive requests to trigger CPU-based autoscaling"
  end.

Definition expected (k : scenario_id) : string :=
  match k with
  | S1 => "Expected behavior: Pods should scale from 2 to ~8 over 10 minutes"
  | S2 => "Expected behavior: Quick scale-out during spikes, scale-in during quiet periods"
  | S3 => "Expected behavior: Stable scaling to handle consistent load"
  | S4 => "Expected behavior: Scaling based on CPU utilization metrics"
  end.

Definition starting (k : scenario_id) : string :=
  match k with
  | S1 => "Starting gradual ramp load test..."
  | S2 => "Starting spike load test..."
  | S3 => "Starting sustained load test..."
  | S4 => "Starting CPU-intensive load test..."
  end.

Definition completed (k : scenario_id) : string :=
  match k with
  | S1 => " Scenario 1 completed!"
  | S2 => " Scenario 2 completed!"
  | S3 => " Scenario 3 completed!"
  | S4 => " Scenario 4 completed!"
  end.

(** The load: [subprocess.run] of the load generator in scenarios 1 to 3,
    [await cpu_intensive_load()] in scenario 4. *)
Definition load_phase (k : scenario_id) (self : AutoscalingDemo) : prog unit :=
  match load_argv k (app_url self) with
  | Some argv => subprocess_run argv
  | None =>
      _ <- run_io (fun env => cpu_intensive_load (app_url self) (post_reply env)) ;;
      pret tt
  end.

Definition run_scenario (k : scenario_id) (self : AutoscalingDemo) : prog unit :=
  print (String newline (title k)) ;;;
  print (Py.repeat_str "=" 70) ;;;
  print (purpose k) ;;;
  print (expected k) ;;;
  monitor_process <- popen_monitor k (app_url self) ;;
  print (String newline (starting k)) ;;;
  load_phase k self ;;;
  terminate monitor_process ;;;
  print (String newline (completed k)).

Definition scenario_1_gradual_ramp : AutoscalingDemo -> prog unit := run_scenario S1.
Definition scenario_2_spike_test : AutoscalingDemo -> prog unit := run_scenario S2.
Definition scenario_3_sustained_load : AutoscalingDemo -> prog unit := run_scenario S3.
Definition scenario_4_cpu_intensive : AutoscalingDemo -> prog unit := run_scenario S4.

Definition scenario (k : scenario_id) : AutoscalingDemo -> prog unit :=
  match k with
  | S1 => scenario_1_gradual_ramp
  | S2 => scenario_2_spike_test
  | S3 => scenario_3_sustained_load
  | S4 => scenario_4_cpu_intensive
  end.

(** ** The entry point *)

Record Args : Type := {
  command : string;
  url : string;
  kubectl_context_arg : option string;
  duration : Z
}.

(** [main], after argparse has produced [args]. *)
Definition main (args : Args) : prog unit :=
  let demo := new_demo (url args) (kubectl_context_arg args) in
  if String.eqb (command args) "scenario1" then scenario_1_gradual_ramp demo
  else if String.eqb (command args) "scenario2" then scenario_2_spike_test demo
  else if String.eqb (command args) "scenario3" then scenario_3_sustained_load demo
  else if String.eqb (command args) "scenario4" then scenario_4_cpu_intensive demo
  else if String.eqb (command args) "all" then
    print " RUNNING ALL AUTOSCALING DEMO SCENARIOS" ;;;
    print (Py.repeat_str "=" 70) ;;;
    scenario_1_gradual_ramp demo ;;;
    sleep 30 ;;;
    scenario_2_spike_test demo ;;;
    sleep 30 ;;;
    scenario_3_sustained_load demo ;;;
    sleep 30 ;;;
    scenario_4_cpu_intensive demo ;;;
    run_io (fun env => generate_demo_report (files env))
  else if String.eqb (command args) "monitor" then
    run_io (fun env => monitor_scaling demo (duration args) (start_clock env) (ticks env))
  else if String.eqb (command args) "report" then
    run_io (fun env => generate_demo_report (files env))
  else pret tt.

Local Close Scope prog_scope.

(** * Vocabulary of the statements *)

(** ** Status queries *)

(** The label by the three-way comparison of desired and current. *)
Definition label_of (current desired : Z) : string :=
  match (desired ?= current)%Z with
  | Gt => "Scaling Up"
  | Lt => "Scaling Down"
  | Eq => "Stable"
  end.

(** What [get_hpa_status] makes of the text that [run_kubectl] returns. *)
Definition parse_hpa (output : string) : io (gmap string Z) :=
  if truthy output then
    let parts := Py.split "," output in
    bind (hpa_field parts 0 true) (fun current =>
    bind (hpa_field parts 1 (1 <? length parts)%nat) (fun desired =>
    bind (hpa_field parts 2 (2 <? length parts)%nat) (fun cpu =>
    ret (hpa_sample current desired cpu))))
  else ret (hpa_sample 0 0 0).

(** The number of occurrences of a character. *)
Fixpoint count_char (c : ascii) (s : string) : nat :=
  match s with
  | "" => 0
  | String c' s' => (if Ascii.eqb c' c then 1 else 0) + count_char c s'
  end.

(** A text has ink when some character of it is no white space. *)
Fixpoint has_ink (s : string) : bool :=
  match s with
  | "" => false
  | String c s' => negb (Py.isspace c) || has_ink s'
  end.

(** The line break as a text. *)
Definition nl : string := String newline "".

(** The output of the listing query: one line per instance. *)
Fixpoint listing (lines : list string) : string :=
  match lines with
  | [] => ""
  | l :: ls => l +:+ nl +:+ listing ls
  end.

(** The number of lines of a text that does not end in a line break. *)
Definition line_count (output : string) : nat :=
  if truthy output then S (count_char newline output) else 0.

(** A line of the listing holds no line break and is not blank. *)
Definition pod_line (l : string) : Prop :=
  count_char newline l = 0%nat /\ has_ink l = true.

Module Digits.

Import Decimal.

(** The value and the length of a decimal numeral, read from the left. *)
Fixpoint uint_val (acc : Z) (u : uint) : Z :=
  match u with
  | Nil => acc
  | D0 l => uint_val (10 * acc + 0) l
  | D1 l => uint_val (10 * acc + 1) l
  | D2 l => uint_val (10 * acc + 2) l
  | D3 l => uint_val (10 * acc + 3) l
  | D4 l => uint_val (10 * acc + 4) l
  | D5 l => uint_val (10 * acc + 5) l
  | D6 l => uint_val (10 * acc + 6) l
  | D7 l => uint_val (10 * acc + 7) l
  | D8 l => uint_val (10 * acc + 8) l
  | D9 l => uint_val (10 * acc + 9) l
  end.

Fixpoint uint_len (u : uint) : nat :=
  match u with
  | Nil => 0
  | D0 l | D1 l | D2 l | D3 l | D4 l | D5 l | D6 l | D7 l | D8 l | D9 l =>
      S (uint_len l)
  end.

End Digits.

(** The characters that [str] prints: digits and the minus sign. *)
Definition is_num (c : ascii) : bool :=
  match Py.digit_val c with
  | Some _ => true
  | None => Ascii.eqb c "-"
  end.

(** Every character of the text satisfies [P]. *)
Fixpoint all_chars (P : ascii -> bool) (s : string) : bool :=
  match s with
  | "" => true
  | String c s' => P c && all_chars P s'
  end.

(** One field of the status line: empty when the value is absent. *)
Definition show_field (f : option Z) : string :=
  match f with
  | Some z => Py.str z
  | None => ""
  end.

(** The line that the jsonpath template prints for the given fields. *)
Definition hpa_line (fields : list (option Z)) : string :=
  Py.join "," (map show_field fields).

(** The value of field i, and 0 when it is empty or missing. *)
Definition field_or_zero (fields : list (option Z)) (i : nat) : Z :=
  match fields !! i with
  | Some (Some z) => z
  | _ => 0
  end.

(** The fields of the status are 32-bit integers in the API of the
    control plane. *)
Definition int32_field (f : option Z) : Prop :=
  match f with
  | Some z => - 2 ^ 31 <= z < 2 ^ 31
  | None => True
  end.

(** ** The burst and the report *)

(** One turn of the launching loop. *)
Definition launch_effects (url : string) (i : nat) : list event :=
  [CreateTask i (cpu_endpoint url) 500000; Sleep (1 # 10)].

(** All that the burst does: 50 launches, then the gathering. *)
Definition burst_events (url : string) : list event :=
  flat_map (launch_effects url) (seq 0 50) ++ [Gather 50 true].

(** What one scenario contributes to the report: the message when its file
    is missing, its histogram when the file has results. *)
Definition entry_trace (fs : gmap string file) (i : nat)
    (entry : string * string) : list event :=
  match fs !! entry.1 with
  | None => [Print (not_found_message entry.1)]
  | Some (Json d) =>
      match stats d with
      | Some avg => [Hist (i / 2) (i mod 2) entry.2 (avg * 1000)%Q
                          (response_times_ms (results d))]
      | None => []
      end
  | Some Broken => []
  end.

(** The two lines that open the report and the two effects that end it. *)
Definition report_head : list event :=
  [Print (String newline " GENERATING DEMO REPORT"); Print (Py.repeat_str "=" 50)].

Definition report_tail : list event :=
  [Savefig report_file; Print ("Demo report saved to: " +:+ report_file)].

(** All that the report does on the working directory [fs]. *)
Definition report_events (fs : gmap string file) : list event :=
  report_head
    ++ entry_trace fs 0 ("scenario1_results.json", "Gradual Ramp")
    ++ entry_trace fs 1 ("scenario2_results.json", "Load Spikes")
    ++ entry_trace fs 2 ("scenario3_results.json", "Sustained Load")
    ++ report_tail.

(** A working directory with the results of scenario 2 only. *)
Definition only_scenario2 : gmap string file :=
  {[ "scenario2_results.json" :=
       Json {| stats := Some (1 # 100);
               results := [ {| status_code := 200; response_time := 1 # 100 |};
                            {| status_code := 500; response_time := 1 # 2 |} ] |} ]}.

(** ** The main process and its children *)

(** What the main process did, and what the child [pid] did, in order. *)
Definition main_events (tr : list obs) : list event :=
  omap (fun o => match o with Main e => Some e | Child _ _ => None end) tr.

Definition child_events (pid : nat) (tr : list obs) : list event :=
  omap (fun o => match o with
                 | Child q e => if decide (q = pid) then Some e else None
                 | Main _ => None
                 end) tr.

(** The child has been sent SIGTERM, or is dead already. *)
Definition stopping (pid : nat) (ps : gmap nat proc) : Prop :=
  exists p, ps !! pid = Some p /\ (p_state p = Dead \/ p_sigterm p = true).

(** The child has exited or has been killed. *)
Definition dead (pid : nat) (ps : gmap nat proc) : Prop :=
  exists p, ps !! pid = Some p /\ p_state p = Dead.

(** The child exists. *)
Definition has_proc (pid : nat) (ps : gmap nat proc) : Prop := is_Some (ps !! pid).

(** A property of the children that no move of the background breaks. *)
Definition stable (I : gmap nat proc -> Prop) : Prop :=
  forall w b, I (procs w) -> I (procs (bg_step w b)).

(** The main process has performed [t], the next child will be [n], and
    the children satisfy [I]. *)
Definition holds (t : list event) (n : nat) (I : gmap nat proc -> Prop)
    (w : world) : Prop :=
  main_events (trace w) = t /\ next_pid w = n /\ I (procs w).

(** All that the main process does in scenario [k], whose child is [pid]. *)
Definition scenario_events (k : scenario_id) (self : AutoscalingDemo)
    (exe file : string) (pid : nat) : list event :=
  [ Print (String newline (title k));
    Print (Py.repeat_str "=" 70);
    Print (purpose k);
    Print (expected k);
    Popen pid ([exe; file] ++ monitor_args k (app_url self));
    Print (String newline (starting k)) ]
  ++ match load_argv k (app_url self) with
     | Some argv => [Exec argv]
     | None => burst_events (app_url self)
     end
  ++ [ Terminate pid; Print (String newline (completed k)) ].

(** The triple of the logic: from a world that satisfies [P] the program
    returns, with a result and a world that satisfy [Q]. *)
Definition triple {A : Type} (env : Env) (P : world -> Prop) (m : prog A)
    (Q : A -> world -> Prop) : Prop :=
  forall w, P w -> exists a w', m env w = (Ret a, w') /\ Q a w'.

(** ** Environments of the examples *)

(** A turn of the loop at the given time, with one pod and the status 2,3,70. *)
Definition sample_tick (seconds : Z) : tick :=
  {| now := inject_Z seconds;
     pods_reply := Exited 0 "cloudapp-1  1/1  Running";
     hpa_reply := Exited 0 "2,3,70";
     wall := "10:00:00" |}.

(** The load ends while the monitor is in a turn of its loop; nothing else
    happens before the scenario returns. *)
Definition racing_env : Env :=
  {| executable := "/usr/bin/python3";
     script := "demo_scenarios.py";
     background := fun n =>
       match n with
       | 7%nat => [MonitorTurn 0 (sample_tick 0); MonitorTurn 0 (sample_tick 1)]
       | _ => []
       end;
     load_reply := fun _ => Exited 0 "";
     post_reply := fun _ => Responds 200;
     files := ∅;
     start_clock := 0;
     ticks := [] |}.

(** ** Command lines *)



(** The two lines that open the command [all]. *)
Definition all_header : list event :=
  [Print " RUNNING ALL AUTOSCALING DEMO SCENARIOS"; Print (Py.repeat_str "=" 70)].

(** Nothing happens beside the main process; every load exits. *)
Definition quiet_env : Env :=
  {| executable := "/usr/bin/python3";
     script := "demo_scenarios.py";
     background := fun _ => [];
     load_reply := fun _ => Exited 0 "";
     post_reply := fun _ => Responds 200;
     files := ∅;
     start_clock := 0;
     ticks := [] |}.

(** The command line [all --url http://app]. *)
Definition all_args : Args :=
  {| command := "all"; url := "http://app"; kubectl_context_arg := None;
     duration := 300 |}.

(** ** Failing runs of the main process *)

(** The child exists and no SIGTERM has been sent to it. *)
Definition unsignalled (pid : nat) (ps : gmap nat proc) : Prop :=
  exists p, ps !! pid = Some p /\ p_sigterm p = false.

(** From a world that satisfies [P] the program raises [e], in a world that
    satisfies [Q]. *)
Definition raising {A : Type} (env : Env) (P : world -> Prop) (m : prog A)
    (e : exn) (Q : world -> Prop) : Prop :=
  forall w, P w -> exists w', m env w = (Raise e, w') /\ Q w'.

(** What the main process does in scenario [k] up to the start of the load. *)
Definition scenario_start (k : scenario_id) (self : AutoscalingDemo)
    (exe file : string) (pid : nat) : list event :=
  [ Print (String newline (title k));
    Print (Py.repeat_str "=" 70);
    Print (purpose k);
    Print (expected k);
    Popen pid ([exe; file] ++ monitor_args k (app_url self));
    Print (String newline (starting k)) ].

(** The load generator cannot be started: the executable is not found. *)
Definition no_python_env : Env :=
  {| executable := "/usr/bin/python3";
     script := "demo_scenarios.py";
     background := fun _ => [];
     load_reply := fun _ => SpawnFails;
     post_reply := fun _ => Responds 200;
     files := ∅;
     start_clock := 0;
     ticks := [] |}.

(** A property of the children that does not depend on the child [n]. *)
Definition framed (n : nat) (F : gmap nat proc -> Prop) : Prop :=
  forall ps p, F ps -> F (<[n := p]> ps).

(** * The web service: [app/main.py]

    The handlers of the REST service, with the database as an environment:
    the outcome of each connection attempt, of each [cursor.execute] and of
    [commit] is given from outside. A JSON body is an object of scalars, or
    is absent; a row of the table is a dict. The local variable [conn] of a
    handler is part of the state, since a name that was never assigned
    raises UnboundLocalError when it is read. The text of a statement is
    given on one line, its white space normalised; the text of a log entry
    is the part before the exception or the number. *)

Module App.

Inductive jval : Type :=
| JNull
| JBool (b : bool)
| JNum (z : Z)
| JStr (s : string).

Inductive aexn : Type :=
| DbError                          (* psycopg2.Error *)
| BadRequest (description : string)
| NotFound (description : string)
| UnboundLocalError
| ValueErr                         (* ValueError of int() *)
| TypeErr                          (* dict(None), None['id'] *)
| KeyErr
| AttributeErr                     (* None.cursor *)
| OtherExc.                        (* any other exception of a call *)

Inductive result (A : Type) : Type :=
| Ok (a : A)
| Err (e : aexn).

Arguments Ok {A} a.
Arguments Err {A} e.

Inductive ev : Type :=
| Connect (attempt : nat)   (* psycopg2.connect, attempts counted from 0 *)
| GaugeInc                  (* ACTIVE_CONNECTIONS.inc() *)
| GaugeDec                  (* ACTIVE_CONNECTIONS.dec() *)
| LogError (text : string)  (* logger.error, the text before the exception *)
| LogInfo (text : string)   (* logger.info *)
| TimeSleep (seconds : Z)   (* time.sleep *)
| Execute (sql : string) (params : list jval)   (* cursor.execute *)
| Commit
| Rollback
| Close.

(** The local variable [conn]. *)
Inductive cvar : Type :=
| Unbound
| IsNone
| IsConn.

(** A statement of a handler: from the state of [conn] to the effects, the
    outcome and the new state of [conn]. *)
Definition M (A : Type) : Type := cvar -> list ev * result A * cvar.

Definition ret {A : Type} (a : A) : M A := fun c => ([], Ok a, c).
Definition raise {A : Type} (e : aexn) : M A := fun c => ([], Err e, c).
Definition emit (e : ev) : M unit := fun c => ([e], Ok tt, c).

Definition bind {A B : Type} (m : M A) (k : A -> M B) : M B :=
  fun c =>
    match m c with
    | (es, Ok a, c') => let '(es', r, c'') := k a c' in (es ++ es', r, c'')
    | (es, Err e, c') => (es, Err e, c')
    end.

(** [try: m except ...: h]. The handler [h] gives [None] for an exception
    that no clause catches. *)
Definition catch {A : Type} (m : M A) (h : aexn -> option (M A)) : M A :=
  fun c =>
    match m c with
    | (es, Ok a, c') => (es, Ok a, c')
    | (es, Err e, c') =>
        match h e with
        | Some k => let '(es', r, c'') := k c' in (es ++ es', r, c'')
        | None => (es, Err e, c')
        end
    end.

(** [try: m finally: f]: [f] runs in every case, and an exception of [f]
    replaces the outcome of [m]. *)
Definition finally {A : Type} (m : M A) (f : M unit) : M A :=
  fun c =>
    let '(es, r, c') := m c in
    match f c' with
    | (es', Ok _, c'') => (es ++ es', r, c'')
    | (es', Err e, c'') => (es ++ es', Err e, c'')
    end.

(** [conn = v] and the value of the name [conn]. *)
Definition set_conn (v : cvar) : M unit := fun _ => ([], Ok tt, v).

Definition get_conn : M bool :=
  fun c =>
    match c with
    | Unbound => ([], Err UnboundLocalError, c)
    | IsNone => ([], Ok false, c)
    | IsConn => ([], Ok true, c)
    end.

(** The environment: the database. *)
Inductive conn_try : Type :=
| Connects
| ConnFails      (* psycopg2.Error *)
| ConnBreaks.    (* another exception *)

Inductive qres : Type :=
| Done (rows : list (gmap string jval)) (rowcount : nat)
| QFails.        (* cursor.execute raises psycopg2.Error *)

(** [DatabaseManager.get_connection]: the loop over [range(max_retries)]
    from [attempt] on, with [n] turns left. The value is [true] for a
    connection and [false] for the [None] of a loop that ends. *)
Fixpoint connect_loop (tries : nat -> conn_try) (max_retries attempt n : nat)
    : list ev * result bool :=
  match n with
  | O => ([], Ok false)
  | S n' =>
      match tries attempt with
      | Connects => ([Connect attempt; GaugeInc], Ok true)
      | ConnBreaks => ([Connect attempt], Err OtherExc)
      | ConnFails =>
          if (attempt =? max_retries - 1)%nat
          then ([Connect attempt; LogError "Database connection attempt failed"],
                Err DbError)
          else
            let '(es, r) := connect_loop tries max_retries (S attempt) n' in
            (Connect attempt :: LogError "Database connection attempt failed"
               :: TimeSleep (2 ^ Z.of_nat attempt) :: es, r)
      end
  end.

Definition get_connection (tries : nat -> conn_try) : list ev * result bool :=
  connect_loop tries 3 0 3.

(** [conn = db_manager.get_connection()] *)
Definition connect (tries : nat -> conn_try) : M unit :=
  fun c =>
    match get_connection tries with
    | (es, Ok true) => (es, Ok tt, IsConn)
    | (es, Ok false) => (es, Ok tt, IsNone)
    | (es, Err e) => (es, Err e, c)
    end.

(** [DatabaseManager.close_connection(conn)] *)
Definition close_connection : M unit :=
  bind get_conn (fun c =>
    if c then bind (emit Close) (fun _ => emit GaugeDec) else ret tt).

(** [conn.cursor(...)]: the name is read, and [None] has no cursor. *)
Definition cursor : M unit :=
  bind get_conn (fun c => if c then ret tt else raise AttributeErr).

(** [cursor.execute(sql, params)] *)
Definition execute (sql : string) (params : list jval) (q : qres)
    : M (list (gmap string jval) * nat) :=
  bind (emit (Execute sql params)) (fun _ =>
    match q with
    | Done rows rowcount => ret (rows, rowcount)
    | QFails => raise DbError
    end).

(** [conn.commit()] *)
Definition commit (commit_ok : bool) : M unit :=
  bind (emit Commit) (fun _ => if commit_ok then ret tt else raise DbError).

(** [if conn: conn.rollback()] *)
Definition rollback_if_conn : M unit :=
  bind get_conn (fun c => if c then emit Rollback else ret tt).

(** [str(e)] for the two HTTP exceptions (werkzeug prints the code, the
    name and the description). *)
Definition exn_str (e : aexn) : string :=
  match e with
  | BadRequest d => "400 Bad Request: " +:+ d
  | NotFound d => "404 Not Found: " +:+ d
  | _ => ""
  end.

Inductive rbody : Type :=
| RError (message : string)
| RTask (task : gmap string jval)
| RTasks (tasks : list (gmap string jval)) (count : nat) (limit offset : Z)
| RHealthy
| RUnhealthy
| REmpty
| RCpu (result iterations : Z).

Definition response : Type := rbody * Z.

(** [DatabaseManager.init_db]: the exception is raised again after the
    rollback. *)
Definition init_db (tries : nat -> conn_try) (q_table q_index : qres)
    (commit_ok : bool) : M unit :=
  bind (set_conn IsNone) (fun _ =>
  finally
    (catch
       (bind (connect tries) (fun _ =>
        bind cursor (fun _ =>
        bind (execute
                "CREATE TABLE IF NOT EXISTS tasks ( id SERIAL PRIMARY KEY, title VARCHAR(255) NOT NULL, description TEXT, status VARCHAR(50) DEFAULT 'pending', created_at TIMESTAMP DEFAULT CURRENT_TIMESTAMP, updated_at TIMESTAMP DEFAULT CURRENT_TIMESTAMP )"
                [] q_table) (fun _ =>
        bind (execute "CREATE INDEX IF NOT EXISTS idx_tasks_status ON tasks(status)"
                [] q_index) (fun _ =>
        bind (commit commit_ok) (fun _ =>
        emit (LogInfo "Database initialized successfully")))))))
       (fun e =>
          Some (bind (emit (LogError "Database initialization failed")) (fun _ =>
                bind rollback_if_conn (fun _ =>
                raise e)))))
    close_connection).

(** The truth value of a dict. *)
Definition dict_truthy (d : gmap string jval) : bool :=
  negb (bool_decide (d = ∅)).

(** [get_task] *)
Definition get_task (task_id : Z) (tries : nat -> conn_try) (q : qres) : M response :=
  bind (set_conn IsNone) (fun _ =>
  finally
    (catch
       (bind (connect tries) (fun _ =>
        bind cursor (fun _ =>
        bind (execute "SELECT * FROM tasks WHERE id = %s" [JNum task_id] q) (fun r =>
        match head r.1 with
        | Some task =>
            if dict_truthy task then ret (RTask task, 200)
            else raise (NotFound "Task not found")
        | None => raise (NotFound "Task not found")
        end))))
       (fun e =>
          match e with
          | NotFound _ => Some (ret (RError (exn_str e), 404))
          | _ => Some (bind (emit (LogError "Failed to fetch task")) (fun _ =>
                       ret (RError "Failed to fetch task", 500)))
          end))
    close_connection).

(** [delete_task] *)
Definition delete_task (task_id : Z) (tries : nat -> conn_try) (q : qres)
    (commit_ok : bool) : M response :=
  bind (set_conn IsNone) (fun _ =>
  finally
    (catch
       (bind (connect tries) (fun _ =>
        bind cursor (fun _ =>
        bind (execute "DELETE FROM tasks WHERE id = %s" [JNum task_id] q) (fun r =>
        if (r.2 =? 0)%nat then raise (NotFound "Task not found")
        else
          bind (commit commit_ok) (fun _ =>
          bind (emit (LogInfo "Deleted task")) (fun _ =>
          ret (REmpty, 204)))))))
       (fun e =>
          match e with
          | NotFound _ => Some (ret (RError (exn_str e), 404))
          | _ => Some (bind (emit (LogError "Failed to delete task")) (fun _ =>
                       bind rollback_if_conn (fun _ =>
                       ret (RError "Failed to delete task", 500))))
          end))
    close_connection).

(** What [request.get_json()] gives. *)
Inductive json_in : Type :=
| JsonRaises (description : string)   (* BadRequest of a body that is no JSON *)
| JsonNone
| JsonObj (data : gmap string jval).

Definition get_json (body : json_in) : M (option (gmap string jval)) :=
  match body with
  | JsonRaises d => raise (BadRequest d)
  | JsonNone => ret None
  | JsonObj data => ret (Some data)
  end.

(** [d.get(key, default)] *)
Definition dict_get_default (d : gmap string jval) (key : string) (default : jval) : jval :=
  match d !! key with
  | Some v => v
  | None => default
  end.

(** [key in d] *)
Definition has_key (d : gmap string jval) (key : string) : bool :=
  match d !! key with
  | Some _ => true
  | None => false
  end.

(** [create_task]: no [conn = None] before the [try]. *)
Definition create_task (body : json_in) (tries : nat -> conn_try) (q : qres)
    (commit_ok : bool) : M response :=
  finally
    (catch
       (bind (get_json body) (fun data =>
        match data with
        | None => raise (BadRequest "Title is required")
        | Some data =>
            if negb (dict_truthy data) || negb (has_key data "title")
            then raise (BadRequest "Title is required")
            else
              let title := dict_get_default data "title" JNull in
              let description := dict_get_default data "description" (JStr "") in
              let status := dict_get_default data "status" (JStr "pending") in
              bind (connect tries) (fun _ =>
              bind cursor (fun _ =>
              bind (execute
                      "INSERT INTO tasks (title, description, status) VALUES (%s, %s, %s) RETURNING *"
                      [title; description; status] q) (fun r =>
              bind (commit commit_ok) (fun _ =>
              match head r.1 with
              | None => raise TypeErr
              | Some task =>
                  match task !! "id" with
                  | None => raise KeyErr
                  | Some _ =>
                      bind (emit (LogInfo "Created task")) (fun _ =>
                      ret (RTask task, 201))
                  end
              end))))
        end))
       (fun e =>
          match e with
          | BadRequest _ => Some (ret (RError (exn_str e), 400))
          | _ => Some (bind (emit (LogError "Failed to create task")) (fun _ =>
                       bind rollback_if_conn (fun _ =>
                       ret (RError "Failed to create task", 500))))
          end))
    close_connection.

(** The loop of [update_task] over the three fields that may be set: the
    assignments of the SET clause and their values. *)
Fixpoint collect_updates (data : gmap string jval) (fields : list string)
    : list string * list jval :=
  match fields with
  | [] => ([], [])
  | field :: fields' =>
      let '(update_fields, values) := collect_updates data fields' in
      match data !! field with
      | Some v => ((field +:+ " = %s") :: update_fields, v :: values)
      | None => (update_fields, values)
      end
  end.

Definition updatable : list string := ["title"; "description"; "status"].

Definition update_sql (update_fields : list string) : string :=
  "UPDATE tasks SET " +:+ Py.join ", " update_fields +:+ " WHERE id = %s RETURNING *".

(** [update_task] *)
Definition update_task (task_id : Z) (body : json_in) (tries : nat -> conn_try)
    (q_exists q_update : qres) (commit_ok : bool) : M response :=
  bind (set_conn IsNone) (fun _ =>
  finally
    (catch
       (bind (get_json body) (fun data =>
        match data with
        | None => raise (BadRequest "Request body is required")
        | Some data =>
            if negb (dict_truthy data) then raise (BadRequest "Request body is required")
            else
              bind (connect tries) (fun _ =>
              bind cursor (fun _ =>
              bind (execute "SELECT id FROM tasks WHERE id = %s" [JNum task_id] q_exists)
                   (fun r =>
              match head r.1 with
              | None => raise (NotFound "Task not found")
              | Some found =>
                  if negb (dict_truthy found) then raise (NotFound "Task not found")
                  else
                    let '(update_fields, values) := collect_updates data updatable in
                    match update_fields with
                    | [] => raise (BadRequest "No valid fields to update")
                    | _ =>
                        bind (execute
                                (update_sql (update_fields ++ ["updated_at = CURRENT_TIMESTAMP"]))
                                (values ++ [JNum task_id]) q_update) (fun r' =>
                        bind (commit commit_ok) (fun _ =>
                        bind (emit (LogInfo "Updated task")) (fun _ =>
                        match head r'.1 with
                        | Some task => ret (RTask task, 200)
                        | None => raise TypeErr
                        end)))
                    end
              end)))
        end))
       (fun e =>
          match e with
          | BadRequest _ => Some (ret (RError (exn_str e), 400))
          | NotFound _ => Some (ret (RError (exn_str e), 404))
          | _ => Some (bind (emit (LogError "Failed to update task")) (fun _ =>
                       bind rollback_if_conn (fun _ =>
                       ret (RError "Failed to update task", 500))))
          end))
    close_connection).

(** [health_check]: the connection is closed in the [try] only. *)
Definition health_check (tries : nat -> conn_try) (q : qres) : M response :=
  catch
    (bind (connect tries) (fun _ =>
     bind cursor (fun _ =>
     bind (execute "SELECT 1" [] q) (fun _ =>
     bind close_connection (fun _ =>
     ret (RHealthy, 200))))))
    (fun _ =>
       Some (bind (emit (LogError "Health check failed")) (fun _ =>
             ret (RUnhealthy, 503)))).

(** [int(request.args.get(key, default))]: a query parameter is a text. *)
Definition int_arg (args : gmap string string) (key : string) (default : Z) : M Z :=
  match args !! key with
  | Some s =>
      match Py.int s with
      | Ret z => ret z
      | _ => raise ValueErr
      end
  | None => ret default
  end.

(** [get_tasks]: the two integers are read before the [try]. *)
Definition get_tasks (args : gmap string string) (tries : nat -> conn_try)
    (q : qres) : M response :=
  let status_filter := args !! "status" in
  bind (int_arg args "limit" 100) (fun limit =>
  bind (int_arg args "offset" 0) (fun offset =>
  bind (set_conn IsNone) (fun _ =>
  finally
    (catch
       (bind (connect tries) (fun _ =>
        bind cursor (fun _ =>
        bind (match status_filter with
              | Some (String c s) =>
                  execute "SELECT * FROM tasks WHERE status = %s ORDER BY created_at DESC LIMIT %s OFFSET %s"
                          [JStr (String c s); JNum limit; JNum offset] q
              | _ =>
                  execute "SELECT * FROM tasks ORDER BY created_at DESC LIMIT %s OFFSET %s"
                          [JNum limit; JNum offset] q
              end) (fun r =>
        ret (RTasks r.1 (length r.1) limit offset, 200)))))
       (fun _ =>
          Some (bind (emit (LogError "Failed to fetch tasks")) (fun _ =>
                ret (RError "Failed to fetch tasks", 500)))))
    close_connection))).



(** The body has no title: it is no JSON, is absent, or lacks the key. *)
Definition no_title (body : json_in) : Prop :=
  match body with
  | JsonObj data => data !! "title" = None
  | _ => True
  end.

(** A query parameter that is there and is no integer for [int]. *)
Definition bad_number (args : gmap string string) (key : string) : Prop :=
  exists s, args !! key = Some s /\ forall z, Py.int s <> Ret z.

(** The integer that a query parameter holds, and the default when the
    parameter is absent. *)
Definition number_of (args : gmap string string) (key : string) (default : Z) : Z :=
  match args !! key with
  | Some s => match Py.int s with Ret z => z | _ => default end
  | None => default
  end.

(** How many of the events are of a kind. *)
Fixpoint count_ev (kind : ev -> bool) (es : list ev) : nat :=
  match es with
  | [] => 0
  | e :: es' => (if kind e then 1 else 0) + count_ev kind es'
  end.

Definition is_connect (e : ev) : bool := match e with Connect _ => true | _ => false end.
Definition is_inc (e : ev) : bool := match e with GaugeInc => true | _ => false end.
Definition is_dec (e : ev) : bool := match e with GaugeDec => true | _ => false end.
Definition is_commit (e : ev) : bool := match e with Commit => true | _ => false end.
Definition is_rollback (e : ev) : bool := match e with Rollback => true | _ => false end.
Definition is_execute (e : ev) : bool := match e with Execute _ _ => true | _ => false end.

(** The seconds slept in all. *)
Fixpoint slept (es : list ev) : Z :=
  match es with
  | [] => 0
  | TimeSleep s :: es' => s + slept es'
  | _ :: es' => slept es'
  end.

End App.

(** * Properties *)

(** ** The text primitives on examples *)

Example strip_example : Py.strip (String "010" " a b " +:+ String "009" "") = "a b".
Proof. reflexivity. Qed.

Example split_examples :
  Py.split "," "1,,3" = ["1"; ""; "3"] /\ Py.split "," "" = [""]
  /\ Py.split "," ",," = [""; ""; ""].
Proof. repeat split. Qed.

Example int_examples :
  Py.int " -1_000 " = Ret (-1000) /\ Py.int "007" = Ret 7 /\ Py.int "+5" = Ret 5
  /\ Py.int "1__0" = Raise ValueError /\ Py.int "" = Raise ValueError
  /\ Py.int "- 5" = Raise ValueError /\ Py.int "1.5" = Raise ValueError
  /\ Py.int (String "028" "5") = Raise ValueError.
Proof. repeat split. Qed.

Example str_examples : Py.str (-42) = "-42" /\ Py.str 0 = "0" /\ Py.ljust 6 "12" = "12    ".
Proof. repeat split. Qed.

(** One turn of the monitor on a cluster that scales up. *)
Example monitor_scaling_example :
  monitor_scaling (new_demo "http://app" None) 5 0 [sample_tick 0; sample_tick 10]
  = (monitor_header
       ++ [ Exec (["kubectl"] ++ pods_query);
            Exec (["kubectl"] ++ hpa_query);
            Print "10:00:00             1      70     3        Scaling Up";
            Sleep 10 ],
     Ret tt).
Proof. vm_compute. reflexivity. Qed.

(** ** The monad *)

Lemma bind_ret_l {A B : Type} (a : A) (k : A -> io B) : bind (ret a) k = k a.
Proof. unfold bind, ret. destruct (k a) as [es r]. reflexivity. Qed.

Lemma bind_emit {B : Type} (e : event) (k : unit -> io B) :
  bind (emit e) k = (e :: effects (k tt), outcome (k tt)).
Proof. unfold bind, emit, effects, outcome. destruct (k tt) as [es r]. reflexivity. Qed.

Lemma bind_effects_ret {A B : Type} (m : io A) (k : A -> io B) (a : A) :
  outcome m = Ret a ->
  bind m k = (effects m ++ effects (k a), outcome (k a)).
Proof.
  destruct m as [es r]. simpl. intros ->. simpl.
  destruct (k a) as [es' r']. reflexivity.
Qed.

Lemma bind_fails {A B : Type} (m : io A) (k : A -> io B) :
  returns (outcome m) = false ->
  effects (bind m k) = effects m /\ returns (outcome (bind m k)) = false.
Proof.
  destruct m as [es [a | e | | ]]; simpl; intros H; try discriminate; auto.
Qed.

(** ** The status label *)

Lemma hpa_sample_current c d u : hpa_sample c d u !! "current_replicas" = Some c.
Proof. unfold hpa_sample. by simplify_map_eq. Qed.

Lemma hpa_sample_desired c d u : hpa_sample c d u !! "desired_replicas" = Some d.
Proof. unfold hpa_sample. by simplify_map_eq. Qed.

Lemma hpa_sample_cpu c d u : hpa_sample c d u !! "cpu_utilization" = Some u.
Proof. unfold hpa_sample. by simplify_map_eq. Qed.

Lemma status_label_sample c d u :
  status_label (hpa_sample c d u) = ret (label_of c d).
Proof.
  unfold status_label, dict_get, label_of.
  rewrite hpa_sample_current, hpa_sample_desired.
  rewrite !bind_ret_l.
  unfold Z.gtb, Z.ltb.
  destruct (d ?= c)%Z eqn:E; rewrite ?bind_ret_l, ?hpa_sample_current, ?hpa_sample_desired, ?bind_ret_l, ?E; reflexivity.
Qed.

(** ** kubectl and the two status queries *)

Lemma run_kubectl_ok self cmd stdout :
  run_kubectl self cmd (Exited 0 stdout)
  = ([Exec (kubectl_cmd self ++ cmd)], Ret (Py.strip stdout)).
Proof. reflexivity. Qed.

Lemma run_kubectl_nonzero self cmd code stdout :
  code <> 0 ->
  run_kubectl self cmd (Exited code stdout)
  = ([Exec (kubectl_cmd self ++ cmd);
      LogKubectlError (kubectl_cmd self ++ cmd) code], Ret "").
Proof.
  intros Hc. unfold run_kubectl.
  destruct (Z.eqb_spec code 0) as [->|_]; [contradiction | reflexivity].
Qed.

Lemma get_hpa_status_unfold self reply :
  get_hpa_status self reply = bind (run_kubectl self hpa_query reply) parse_hpa.
Proof. reflexivity. Qed.

Lemma hpa_field_silent parts i g : effects (hpa_field parts i g) = [].
Proof.
  unfold hpa_field, getitem. destruct g; [|reflexivity].
  destruct (parts !! i) as [p|]; [|reflexivity].
  rewrite bind_ret_l. destruct (truthy p); [|reflexivity].
  rewrite bind_ret_l. reflexivity.
Qed.

Lemma parse_hpa_silent output : effects (parse_hpa output) = [].
Proof.
  unfold parse_hpa. destruct (truthy output); [|reflexivity].
  cbv zeta.
  destruct (hpa_field _ 0 true) as [e0 r0] eqn:E0.
  pose proof (hpa_field_silent (Py.split "," output) 0 true) as H0.
  rewrite E0 in H0. simpl in H0. subst e0.
  destruct r0; try reflexivity. simpl.
  destruct (hpa_field _ 1 _) as [e1 r1] eqn:E1.
  pose proof (hpa_field_silent (Py.split "," output) 1 (1 <? length (Py.split "," output))%nat) as H1.
  rewrite E1 in H1. simpl in H1. subst e1.
  destruct r1; try reflexivity. simpl.
  destruct (hpa_field _ 2 _) as [e2 r2] eqn:E2.
  pose proof (hpa_field_silent (Py.split "," output) 2 (2 <? length (Py.split "," output))%nat) as H2.
  rewrite E2 in H2. simpl in H2. subst e2.
  destruct r2; reflexivity.
Qed.

Lemma parse_hpa_shape output m :
  outcome (parse_hpa output) = Ret m -> exists c d u, m = hpa_sample c d u.
Proof.
  unfold parse_hpa. destruct (truthy output).
  - cbv zeta.
    destruct (hpa_field _ 0 true) as [e0 [c| | |]]; simpl; try discriminate.
    destruct (hpa_field _ 1 _) as [e1 [d| | |]]; simpl; try discriminate.
    destruct (hpa_field _ 2 _) as [e2 [u| | |]]; simpl; try discriminate.
    intros [= <-]. eauto.
  - simpl. intros [= <-]. eauto.
Qed.

Lemma get_hpa_status_shape self reply m :
  outcome (get_hpa_status self reply) = Ret m -> exists c d u, m = hpa_sample c d u.
Proof.
  rewrite get_hpa_status_unfold.
  destruct (run_kubectl self hpa_query reply) as [es [out| | |]] eqn:E; simpl; try discriminate.
  destruct (parse_hpa out) as [es' r] eqn:E'. simpl. intros ->.
  apply (parse_hpa_shape out). rewrite E'. reflexivity.
Qed.

(** C3. For every sample that the status query returns, the monitor's label
    is "Scaling Up" when desired exceeds current, "Scaling Down" when desired
    is below current, and "Stable" otherwise, that is when they are equal. *)
Theorem status_label_three_way (self : AutoscalingDemo) (reply : proc_outcome)
    (hpa_status : gmap string Z) :
  outcome (get_hpa_status self reply) = Ret hpa_status ->
  exists current desired,
    hpa_status !! "current_replicas" = Some current /\
    hpa_status !! "desired_replicas" = Some desired /\
    status_label hpa_status
    = ret (match (desired ?= current)%Z with
           | Gt => "Scaling Up"
           | Lt => "Scaling Down"
           | Eq => "Stable"
           end).
Proof.
  intros H. apply get_hpa_status_shape in H as (c & d & u & ->).
  exists c, d. split; [apply hpa_sample_current|].
  split; [apply hpa_sample_desired|].
  apply status_label_sample.
Qed.

Lemma status_label_three_way_witness :
  exists current desired,
    hpa_sample 2 3 70 !! "current_replicas" = Some current /\
    hpa_sample 2 3 70 !! "desired_replicas" = Some desired /\
    status_label (hpa_sample 2 3 70)
    = ret (match (desired ?= current)%Z with
           | Gt => "Scaling Up"
           | Lt => "Scaling Down"
           | Eq => "Stable"
           end).
Proof.
  apply (status_label_three_way (new_demo "http://app" None) (Exited 0 "2,3,70")).
  vm_compute. reflexivity.
Defined.

(** C2, as the code has it: a query that exits with a non-zero status is
    logged and answered by the sample of zeros, and nothing is raised. *)
Theorem get_hpa_status_nonzero_exit (self : AutoscalingDemo) (code : Z)
    (stdout : string) :
  code <> 0 ->
  get_hpa_status self (Exited code stdout)
  = ([Exec (kubectl_cmd self ++ hpa_query);
      LogKubectlError (kubectl_cmd self ++ hpa_query) code],
     Ret (hpa_sample 0 0 0)).
Proof.
  intros Hc. rewrite get_hpa_status_unfold, run_kubectl_nonzero by assumption.
  reflexivity.
Qed.

Lemma get_hpa_status_nonzero_exit_witness :
  get_hpa_status (new_demo "http://app" None) (Exited 1 "")
  = ([Exec (["kubectl"] ++ hpa_query);
      LogKubectlError (["kubectl"] ++ hpa_query) 1],
     Ret (hpa_sample 0 0 0)).
Proof.
  apply (get_hpa_status_nonzero_exit (new_demo "http://app" None) 1 "").
  lia.
Defined.

(** C2 fails as stated: output that is no integer makes [int] raise
    ValueError out of [get_hpa_status], and a kubectl that never exits
    blocks the call, since no timeout is set. *)
Lemma get_hpa_status_malformed_raises :
  outcome (get_hpa_status (new_demo "http://app" None) (Exited 0 "unknown"))
  = Raise ValueError
  /\ outcome (get_hpa_status (new_demo "http://app" None) NeverExits) = Blocks.
Proof. split; vm_compute; reflexivity. Qed.

(** ** The polling loop *)

Lemma in_time_false start duration t :
  duration <= 0 -> (start <= t)%Q -> in_time start duration t = false.
Proof.
  intros Hd Ht. unfold in_time.
  destruct (Qlt_le_dec (t - start) (inject_Z duration)) as [Hlt|Hle]; [|reflexivity].
  exfalso.
  assert (inject_Z duration <= 0)%Q as Hd'.
  { change 0%Q with (inject_Z 0). rewrite <- Zle_Qle. exact Hd. }
  lra.
Qed.

(** C9. For a duration that is zero or negative, and a clock that does not
    run backwards, [monitor_scaling] prints the header and returns: the loop
    body is never run, so no kubectl query is made and no status line is
    printed. *)
Theorem monitor_scaling_nonpositive_duration (self : AutoscalingDemo)
    (duration : Z) (start_time : Q) (t : tick) (script : list tick) :
  duration <= 0 ->
  (start_time <= now t)%Q ->
  monitor_scaling self duration start_time (t :: script)
  = (monitor_header, Ret tt).
Proof.
  intros Hd Ht. unfold monitor_scaling. cbn [monitor_loop].
  rewrite in_time_false by assumption.
  reflexivity.
Qed.

Lemma monitor_scaling_nonpositive_duration_witness :
  monitor_scaling (new_demo "http://app" None) (-5) 100
    [ {| now := 100; pods_reply := Exited 0 "pod-a"; hpa_reply := Exited 0 "2,3,70";
         wall := "10:00:00" |} ]
  = (monitor_header, Ret tt).
Proof.
  apply (monitor_scaling_nonpositive_duration (new_demo "http://app" None) (-5) 100).
  - lia.
  - simpl. apply Qle_refl.
Defined.

(** ** Text: split, strip and counting *)

Arguments Py.isspace : simpl never.
Arguments Py.int_isspace : simpl never.

Lemma str_app_cons (x : ascii) (a b : string) :
  String x a +:+ b = String x (a +:+ b).
Proof. reflexivity. Qed.

Lemma str_app_nil_l (b : string) : "" +:+ b = b.
Proof. reflexivity. Qed.

Ltac str_simpl := rewrite ?str_app_cons, ?str_app_nil_l; simpl.

Lemma str_app_assoc (a b c : string) : (a +:+ b) +:+ c = a +:+ (b +:+ c).
Proof. induction a as [|x a IH]; str_simpl; [reflexivity | f_equal; exact IH]. Qed.

Lemma str_app_nil_r (a : string) : a +:+ "" = a.
Proof. induction a as [|x a IH]; str_simpl; [reflexivity | f_equal; exact IH]. Qed.

Lemma split_nonempty sep s : Py.split sep s <> [].
Proof.
  destruct s as [|c s]; simpl; [discriminate|].
  destruct (Ascii.eqb c sep); [discriminate|].
  destruct (Py.split sep s); discriminate.
Qed.

Lemma split_length sep s : length (Py.split sep s) = S (count_char sep s).
Proof.
  induction s as [|c s IH]; simpl; [reflexivity|].
  destruct (Ascii.eqb c sep); simpl; [by rewrite IH|].
  destruct (Py.split sep s) eqn:E; simpl in *; [discriminate | exact IH].
Qed.

Lemma count_char_app c a b :
  count_char c (a +:+ b) = (count_char c a + count_char c b)%nat.
Proof. induction a as [|x a IH]; str_simpl; [reflexivity | rewrite IH; lia]. Qed.

Lemma count_char_lstrip c s : (count_char c (Py.lstrip s) <= count_char c s)%nat.
Proof.
  induction s as [|x s IH]; simpl; [lia|].
  destruct (Py.isspace x); simpl; lia.
Qed.

Lemma count_char_rstrip c s : (count_char c (Py.rstrip s) <= count_char c s)%nat.
Proof.
  induction s as [|x s IH]; simpl; [lia|].
  destruct (Py.rstrip s) eqn:E.
  - destruct (Py.isspace x); simpl in *; lia.
  - simpl in *. lia.
Qed.

Lemma has_ink_app a b : has_ink (a +:+ b) = has_ink a || has_ink b.
Proof.
  induction a as [|x a IH]; str_simpl; [reflexivity|].
  rewrite IH. by rewrite orb_assoc.
Qed.

Lemma lstrip_has_ink s : has_ink (Py.lstrip s) = has_ink s.
Proof.
  induction s as [|x s IH]; simpl; [reflexivity|].
  destruct (Py.isspace x) eqn:E; simpl; [exact IH | by rewrite E].
Qed.

Lemma rstrip_truthy s : truthy (Py.rstrip s) = has_ink s.
Proof.
  induction s as [|x s IH]; simpl; [reflexivity|].
  destruct (Py.rstrip s) eqn:E; simpl in *.
  - rewrite <- IH. destruct (Py.isspace x); reflexivity.
  - rewrite <- IH. by rewrite orb_true_r.
Qed.

Lemma rstrip_has_ink s : has_ink (Py.rstrip s) = has_ink s.
Proof.
  induction s as [|x s IH]; simpl; [reflexivity|].
  pose proof (rstrip_truthy s) as Ht.
  destruct (Py.rstrip s) eqn:E; simpl in *.
  - rewrite <- Ht. destruct (Py.isspace x) eqn:Ex; simpl; [reflexivity | by rewrite Ex].
  - by rewrite IH.
Qed.

Lemma lstrip_app_ink a b : has_ink a = true -> Py.lstrip (a +:+ b) = Py.lstrip a +:+ b.
Proof.
  induction a as [|x a IH]; str_simpl; [discriminate|].
  destruct (Py.isspace x); simpl; [exact IH | reflexivity].
Qed.

Lemma rstrip_app_ink a b : has_ink b = true -> Py.rstrip (a +:+ b) = a +:+ Py.rstrip b.
Proof.
  intros Hb. induction a as [|x a IH]; str_simpl; [reflexivity|].
  rewrite IH.
  pose proof (rstrip_truthy b) as Ht. rewrite Hb in Ht.
  destruct (a +:+ Py.rstrip b) eqn:E; [|reflexivity].
  destruct a; [|rewrite str_app_cons in E; discriminate].
  rewrite str_app_nil_l in E. rewrite E in Ht. discriminate.
Qed.

Lemma rstrip_app_blank a b : has_ink b = false -> Py.rstrip (a +:+ b) = Py.rstrip a.
Proof.
  intros Hb.
  assert (Py.rstrip b = "") as Hrb.
  { pose proof (rstrip_truthy b) as Ht. rewrite Hb in Ht.
    destruct (Py.rstrip b); [reflexivity | discriminate]. }
  induction a as [|x a IH]; str_simpl; [exact Hrb|].
  by rewrite IH.
Qed.

(** ** Counting the running pods *)

Lemma listing_app ls ln : listing (ls ++ [ln]) = listing ls +:+ (ln +:+ nl).
Proof.
  induction ls as [|l ls IH]; simpl.
  - rewrite str_app_nil_l. by rewrite str_app_nil_r.
  - rewrite IH. by rewrite !str_app_assoc.
Qed.

Lemma count_listing ls :
  Forall pod_line ls -> count_char newline (listing ls) = length ls.
Proof.
  induction 1 as [|l ls [Hl _] _ IH]; simpl; [reflexivity|].
  rewrite !count_char_app, Hl, IH. reflexivity.
Qed.

Lemma count_pos_truthy c s : (0 < count_char c s)%nat -> truthy s = true.
Proof. destruct s; simpl; [lia | reflexivity]. Qed.

Lemma has_ink_nl : has_ink nl = false.
Proof. reflexivity. Qed.

Lemma strip_listing lines :
  Forall pod_line lines -> lines <> [] ->
  truthy (Py.strip (listing lines)) = true /\
  count_char newline (Py.strip (listing lines)) = (length lines - 1)%nat.
Proof.
  intros Hall Hne. unfold Py.strip.
  destruct lines as [|ln ls _] using rev_ind; [contradiction|].
  apply Forall_app in Hall as [Hls Hln].
  apply Forall_singleton in Hln as [Hln0 Hlni].
  rewrite listing_app, length_app. simpl.
  assert (has_ink (ln +:+ nl) = true) as Hink
    by (rewrite has_ink_app, Hlni; reflexivity).
  destruct ls as [|l1 ls].
  - simpl. rewrite str_app_nil_l.
    rewrite lstrip_app_ink by assumption.
    rewrite rstrip_app_blank by apply has_ink_nl.
    split.
    + by rewrite rstrip_truthy, lstrip_has_ink.
    + pose proof (count_char_rstrip newline (Py.lstrip ln)).
      pose proof (count_char_lstrip newline ln). lia.
  - apply Forall_cons in Hls as [[Hl0 Hli] Hls].
    simpl. rewrite !str_app_assoc.
    rewrite lstrip_app_ink by assumption.
    rewrite <- (str_app_assoc nl), <- (str_app_assoc (Py.lstrip l1)).
    rewrite rstrip_app_ink by assumption.
    rewrite rstrip_app_blank by apply has_ink_nl.
    assert (count_char newline
              ((Py.lstrip l1 +:+ nl +:+ listing ls) +:+ Py.rstrip ln)
            = S (length ls)) as Hc.
    { rewrite !count_char_app, (count_listing ls Hls).
      pose proof (count_char_rstrip newline ln).
      pose proof (count_char_lstrip newline l1).
      change (count_char newline nl) with 1%nat. lia. }
    split.
    + apply (count_pos_truthy newline). rewrite Hc. lia.
    + rewrite Hc. simpl. lia.
Qed.

Lemma get_pod_count_of_output self reply es output :
  run_kubectl self pods_query reply = (es, Ret output) ->
  get_pod_count self reply = (es, Ret (Z.of_nat (line_count output))).
Proof.
  intros H. unfold get_pod_count. rewrite H. unfold bind, ret, line_count.
  rewrite split_length, app_nil_r.
  destruct (truthy output); reflexivity.
Qed.

(** C5. The pod count is the number of lines of the text that the listing
    query returns, and 0 for an empty text; on a listing of n instance
    lines, one per line, the count is n. *)
Theorem get_pod_count_counts_lines (self : AutoscalingDemo) :
  (forall reply es output,
      run_kubectl self pods_query reply = (es, Ret output) ->
      get_pod_count self reply = (es, Ret (Z.of_nat (line_count output))))
  /\ line_count "" = 0%nat
  /\ (forall lines,
         Forall pod_line lines ->
         outcome (get_pod_count self (Exited 0 (listing lines)))
         = Ret (Z.of_nat (length lines))).
Proof.
  split; [|split].
  - intros reply es output. apply get_pod_count_of_output.
  - reflexivity.
  - intros lines Hall.
    rewrite (get_pod_count_of_output self _ _ _ (run_kubectl_ok self pods_query _)).
    simpl. f_equal. f_equal. unfold line_count.
    destruct lines as [|l ls]; [reflexivity|].
    destruct (strip_listing (l :: ls) Hall) as [Ht Hc]; [discriminate|].
    rewrite Ht, Hc. simpl. lia.
Qed.

Lemma get_pod_count_counts_lines_witness :
  outcome (get_pod_count (new_demo "http://app" None)
             (Exited 0 (listing ["cloudapp-1  1/1  Running"; "cloudapp-2  1/1  Running"])))
  = Ret 2.
Proof.
  apply (proj2 (proj2 (get_pod_count_counts_lines (new_demo "http://app" None)))
           ["cloudapp-1  1/1  Running"; "cloudapp-2  1/1  Running"]).
  repeat constructor.
Defined.

(** ** [int] reads back what [str] prints *)

Module DigitsFacts.

Import Decimal.
Import Digits.

Lemma read_digits_uint u acc n :
  Py.read_digits acc n true (NilEmpty.string_of_uint u)
  = Some (uint_val acc u, (n + uint_len u)%nat).
Proof.
  revert acc n. induction u; intros acc n; simpl;
    rewrite ?IHu, ?Nat.add_0_r, ?Nat.add_succ_r; reflexivity.
Qed.

Lemma read_digits_uint_first u :
  u <> Nil ->
  Py.read_digits 0 0 false (NilEmpty.string_of_uint u)
  = Some (uint_val 0 u, uint_len u).
Proof.
  destruct u; intros Hu; try contradiction; simpl; rewrite read_digits_uint; reflexivity.
Qed.

Lemma uint_val_acc u (acc : positive) :
  uint_val (Z.pos acc) u = Z.pos (Pos.of_uint_acc u acc).
Proof.
  revert acc. induction u; intros acc; simpl; [reflexivity|..];
    match goal with
    | |- uint_val ?a _ = Z.pos (Pos.of_uint_acc _ ?p) =>
        replace a with (Z.pos p) by lia; apply IHu
    end.
Qed.

Lemma uint_val_of_uint u : uint_val 0 u = Z.of_N (Pos.of_uint u).
Proof.
  induction u; simpl; try reflexivity; try exact IHu;
    match goal with
    | |- uint_val ?a _ = Z.pos (Pos.of_uint_acc _ ?p) =>
        change a with (Z.pos p); apply uint_val_acc
    end.
Qed.

Lemma uint_val_to_uint p : uint_val 0 (Pos.to_uint p) = Z.pos p.
Proof. rewrite uint_val_of_uint, DecimalPos.Unsigned.of_to. reflexivity. Qed.

Lemma uint_val_lower u acc : 0 <= acc -> acc * 10 ^ Z.of_nat (uint_len u) <= uint_val acc u.
Proof.
  revert acc. induction u; intros acc Hacc; cbn [uint_len uint_val];
    [rewrite Z.pow_0_r; lia|..];
    rewrite Nat2Z.inj_succ, Z.pow_succ_r by lia;
    (etransitivity; [|apply IHu; lia]);
    nia.
Qed.

Lemma nzhead_not_D0 d l : nzhead d <> D0 l.
Proof. induction d; simpl; try discriminate; exact IHd. Qed.

Lemma to_uint_leading p :
  exists k l, Pos.to_uint p = l /\ 1 <= k /\ k * 10 ^ Z.of_nat (uint_len l - 1) <= uint_val 0 l
              /\ l <> Nil.
Proof.
  pose proof (DecimalPos.Unsigned.to_of (Pos.to_uint p)) as Hn.
  rewrite DecimalPos.Unsigned.of_to in Hn. simpl in Hn.
  pose proof (DecimalPos.Unsigned.to_uint_nonzero p) as Hz.
  pose proof (DecimalPos.Unsigned.to_uint_nonnil p) as Hnil.
  destruct (Pos.to_uint p) as [|l|l|l|l|l|l|l|l|l|l] eqn:E; [contradiction|..].
  { exfalso. unfold unorm in Hn.
    destruct (nzhead (D0 l)) eqn:Eh; try discriminate Hn;
      [exact (Hz Hn) | exact (nzhead_not_D0 _ _ Eh)]. }
  all: match goal with
       | |- context [?D ?l' = _] =>
           exists (uint_val 0 (D Nil)), (D l'); simpl;
           rewrite Nat.sub_0_r;
           repeat split; [lia | apply uint_val_lower; lia | discriminate]
       end.
Qed.

Lemma to_uint_len p : Z.pos p <= 2 ^ 31 -> (uint_len (Pos.to_uint p) <= 10)%nat.
Proof.
  intros Hp.
  destruct (to_uint_leading p) as (k & l & El & Hk & Hlow & _).
  rewrite El. rewrite <- El in Hlow. rewrite uint_val_to_uint in Hlow. rewrite El in Hlow.
  destruct (le_lt_dec (uint_len l) 10) as [|Hgt]; [assumption|exfalso].
  assert (10 ^ 10 <= 10 ^ Z.of_nat (uint_len l - 1)) as Hpow
    by (apply Z.pow_le_mono_r; lia).
  change (10 ^ 10) with 10000000000 in Hpow.
  change (2 ^ 31) with 2147483648 in Hp.
  nia.
Qed.

End DigitsFacts.

Lemma is_num_plain c :
  is_num c = true ->
  Py.isspace c = false /\ Py.int_isspace c = false /\ Ascii.eqb c "," = false.
Proof.
  destruct c as [[] [] [] [] [] [] [] []]; vm_compute; intros H;
    try discriminate H; repeat split.
Qed.

Lemma all_chars_app P a b : all_chars P (a +:+ b) = all_chars P a && all_chars P b.
Proof.
  induction a as [|x a IH]; str_simpl; [reflexivity|].
  rewrite IH. by rewrite andb_assoc.
Qed.

Lemma all_chars_impl (P Q : ascii -> bool) s :
  (forall c, P c = true -> Q c = true) ->
  all_chars P s = true -> all_chars Q s = true.
Proof.
  intros HPQ. induction s as [|c s IH]; simpl; [reflexivity|].
  intros [Hc Hs]%andb_true_iff. rewrite (HPQ c Hc), (IH Hs). reflexivity.
Qed.

Lemma int_rstrip_id s :
  all_chars (fun c => negb (Py.int_isspace c)) s = true -> Py.int_rstrip s = s.
Proof.
  induction s as [|c s IH]; simpl; [reflexivity|].
  intros [Hc Hs]%andb_true_iff. rewrite (IH Hs).
  apply negb_true_iff in Hc. rewrite Hc. destruct s; reflexivity.
Qed.

Lemma int_lstrip_id s :
  all_chars (fun c => negb (Py.int_isspace c)) s = true -> Py.int_lstrip s = s.
Proof.
  destruct s as [|c s]; simpl; [reflexivity|].
  intros [Hc Hs]%andb_true_iff. apply negb_true_iff in Hc. rewrite Hc. reflexivity.
Qed.

Lemma rstrip_id s :
  all_chars (fun c => negb (Py.isspace c)) s = true -> Py.rstrip s = s.
Proof.
  induction s as [|c s IH]; simpl; [reflexivity|].
  intros [Hc Hs]%andb_true_iff. rewrite (IH Hs).
  apply negb_true_iff in Hc. rewrite Hc. destruct s; reflexivity.
Qed.

Lemma lstrip_id s :
  all_chars (fun c => negb (Py.isspace c)) s = true -> Py.lstrip s = s.
Proof.
  destruct s as [|c s]; simpl; [reflexivity|].
  intros [Hc Hs]%andb_true_iff. apply negb_true_iff in Hc. rewrite Hc. reflexivity.
Qed.

(** White space after a text without white space is stripped away. *)
Lemma strip_app_blank line ws :
  all_chars (fun c => negb (Py.isspace c)) line = true ->
  has_ink ws = false ->
  Py.strip (line +:+ ws) = line.
Proof.
  intros Hl Hws. unfold Py.strip.
  destruct line as [|c line].
  - rewrite str_app_nil_l.
    pose proof (rstrip_truthy (Py.lstrip ws)) as Ht.
    rewrite lstrip_has_ink, Hws in Ht.
    destruct (Py.rstrip (Py.lstrip ws)); [reflexivity | discriminate].
  - rewrite str_app_cons.
    assert (Py.lstrip (String c (line +:+ ws)) = String c (line +:+ ws)) as ->.
    { simpl in *. apply andb_true_iff in Hl as [Hc _].
      apply negb_true_iff in Hc. rewrite Hc. reflexivity. }
    rewrite <- str_app_cons, rstrip_app_blank by assumption.
    apply rstrip_id. exact Hl.
Qed.

Module IntStr.

Import Decimal.

Lemma uint_chars u : all_chars is_num (NilEmpty.string_of_uint u) = true.
Proof. induction u; simpl; rewrite ?IHu; reflexivity. Qed.

Lemma int_unsigned_to_uint p :
  Z.pos p <= 2 ^ 31 ->
  Py.int_unsigned (NilEmpty.string_of_uint (Pos.to_uint p)) = Ret (Z.pos p).
Proof.
  intros Hp. unfold Py.int_unsigned.
  rewrite DigitsFacts.read_digits_uint_first
    by apply DecimalPos.Unsigned.to_uint_nonnil.
  rewrite DigitsFacts.uint_val_to_uint.
  pose proof (DigitsFacts.to_uint_len p Hp) as Hlen.
  unfold Py.max_str_digits.
  destruct (Nat.leb_spec (Digits.uint_len (Pos.to_uint p)) 4300); [reflexivity | lia].
Qed.

Lemma nilzero_to_uint p :
  NilZero.string_of_uint (Pos.to_uint p) = NilEmpty.string_of_uint (Pos.to_uint p).
Proof.
  pose proof (DecimalPos.Unsigned.to_uint_nonnil p).
  destruct (Pos.to_uint p); [contradiction | reflexivity..].
Qed.

Lemma str_chars z : all_chars is_num (Py.str z) = true.
Proof.
  unfold Py.str. destruct z as [|p|p]; simpl; [reflexivity|..];
    rewrite nilzero_to_uint; [|simpl]; apply uint_chars.
Qed.

Lemma str_truthy z : truthy (Py.str z) = true.
Proof.
  unfold Py.str. destruct z as [|p|p]; simpl; [reflexivity| |reflexivity].
  rewrite nilzero_to_uint.
  pose proof (DecimalPos.Unsigned.to_uint_nonnil p).
  destruct (Pos.to_uint p); [contradiction | reflexivity..].
Qed.

Lemma no_int_space s :
  all_chars is_num s = true ->
  all_chars (fun c => negb (Py.int_isspace c)) s = true.
Proof.
  apply all_chars_impl. intros c Hc.
  destruct (is_num_plain c Hc) as (_ & -> & _). reflexivity.
Qed.

(** [int(str(z)) == z] for a 32-bit integer. *)
Lemma int_str z : - 2 ^ 31 <= z < 2 ^ 31 -> Py.int (Py.str z) = Ret z.
Proof.
  intros Hz. unfold Py.int.
  rewrite int_lstrip_id, int_rstrip_id by (apply no_int_space, str_chars).
  unfold Py.str. destruct z as [|p|p]; simpl.
  - reflexivity.
  - rewrite nilzero_to_uint.
    pose proof (int_unsigned_to_uint p (Z.lt_le_incl _ _ (proj2 Hz))) as Hu.
    pose proof (DecimalPos.Unsigned.to_uint_nonnil p).
    destruct (Pos.to_uint p); [contradiction|..]; exact Hu.
  - rewrite nilzero_to_uint, int_unsigned_to_uint; [reflexivity|].
    change (2 ^ 31) with 2147483648 in *. lia.
Qed.

End IntStr.

(** ** The status line of the scaling policy *)

Lemma count_char_none sep s :
  all_chars (fun c => negb (Ascii.eqb c sep)) s = true -> count_char sep s = 0%nat.
Proof.
  induction s as [|c s IH]; simpl; [reflexivity|].
  intros [Hc Hs]%andb_true_iff. apply negb_true_iff in Hc.
  rewrite Hc, (IH Hs). reflexivity.
Qed.

Lemma split_single sep a : count_char sep a = 0%nat -> Py.split sep a = [a].
Proof.
  induction a as [|c a IH]; simpl; [reflexivity|].
  destruct (Ascii.eqb c sep); simpl; [discriminate|].
  intros H. rewrite (IH H). reflexivity.
Qed.

Lemma split_app_sep sep a b :
  count_char sep a = 0%nat ->
  Py.split sep (a +:+ String sep b) = a :: Py.split sep b.
Proof.
  induction a as [|c a IH]; str_simpl.
  - rewrite Ascii.eqb_refl. reflexivity.
  - destruct (Ascii.eqb c sep); simpl; [discriminate|].
    intros H. rewrite (IH H). reflexivity.
Qed.

Lemma split_join sep fs :
  fs <> [] ->
  Forall (fun f => count_char sep f = 0%nat) fs ->
  Py.split sep (Py.join (String sep "") fs) = fs.
Proof.
  intros Hne Hall. induction Hall as [|f fs Hf Hfs IH]; [contradiction|].
  destruct fs as [|g fs].
  - simpl. apply split_single. exact Hf.
  - change (Py.join (String sep "") (f :: g :: fs))
      with (f +:+ String sep "" +:+ Py.join (String sep "") (g :: fs)).
    rewrite str_app_cons, str_app_nil_l, split_app_sep by exact Hf.
    rewrite IH by discriminate. reflexivity.
Qed.

Lemma all_chars_join P sep fs :
  all_chars P sep = true ->
  Forall (fun f => all_chars P f = true) fs ->
  all_chars P (Py.join sep fs) = true.
Proof.
  intros Hsep Hall. induction Hall as [|f fs Hf Hfs IH]; [reflexivity|].
  destruct fs as [|g fs]; [exact Hf|].
  change (Py.join sep (f :: g :: fs)) with (f +:+ sep +:+ Py.join sep (g :: fs)).
  rewrite !all_chars_app, Hf, Hsep, IH. reflexivity.
Qed.

Lemma show_field_chars f : all_chars is_num (show_field f) = true.
Proof. destruct f; [apply IntStr.str_chars | reflexivity]. Qed.

Lemma show_field_no_comma f : count_char "," (show_field f) = 0%nat.
Proof.
  apply count_char_none. eapply all_chars_impl; [|apply show_field_chars].
  intros c Hc. destruct (is_num_plain c Hc) as (_ & _ & ->). reflexivity.
Qed.

Lemma hpa_line_no_space fields :
  all_chars (fun c => negb (Py.isspace c)) (hpa_line fields) = true.
Proof.
  apply all_chars_join; [reflexivity|].
  apply Forall_map, Forall_forall. intros f _. simpl.
  eapply all_chars_impl; [|apply show_field_chars].
  intros c Hc. destruct (is_num_plain c Hc) as (-> & _ & _). reflexivity.
Qed.

Lemma split_hpa_line fields :
  fields <> [] -> Py.split "," (hpa_line fields) = map show_field fields.
Proof.
  intros Hne. unfold hpa_line. apply split_join.
  - destruct fields; [contradiction | discriminate].
  - apply Forall_map, Forall_forall. intros f _. apply show_field_no_comma.
Qed.

Lemma hpa_field_show fields i g :
  Forall int32_field fields ->
  (g = true -> (i < length fields)%nat) ->
  (g = false -> (length fields <= i)%nat) ->
  hpa_field (map show_field fields) i g = ret (field_or_zero fields i).
Proof.
  intros Hall Ht Hf. unfold hpa_field, field_or_zero, getitem.
  destruct g.
  - destruct (lookup_lt_is_Some_2 fields i (Ht eq_refl)) as [f Hi].
    rewrite list_lookup_fmap, Hi. simpl.
    destruct f as [z|]; simpl; [|reflexivity].
    rewrite IntStr.str_truthy.
    rewrite Forall_forall in Hall.
    rewrite IntStr.int_str; [reflexivity|].
    apply (Hall (Some z)). eapply list_elem_of_lookup_2. exact Hi.
  - rewrite (lookup_ge_None_2 fields i (Hf eq_refl)). reflexivity.
Qed.

Lemma hpa_line_empty fields :
  truthy (hpa_line fields) = false ->
  forall i, field_or_zero fields i = 0.
Proof.
  intros Ht i. unfold field_or_zero.
  destruct fields as [|f [|g fs]].
  - reflexivity.
  - destruct f as [z|].
    + unfold hpa_line in Ht. simpl in Ht. rewrite IntStr.str_truthy in Ht. discriminate.
    + destruct i; reflexivity.
  - exfalso. unfold hpa_line in Ht.
    change (map show_field (f :: g :: fs))
      with (show_field f :: show_field g :: map show_field fs) in Ht.
    change (Py.join "," (show_field f :: show_field g :: map show_field fs))
      with (show_field f +:+ "," +:+ Py.join "," (show_field g :: map show_field fs)) in Ht.
    rewrite (count_pos_truthy "," ) in Ht; [discriminate|].
    rewrite !count_char_app. simpl. lia.
Qed.

Lemma parse_hpa_line fields :
  Forall int32_field fields ->
  parse_hpa (hpa_line fields)
  = ret (hpa_sample (field_or_zero fields 0) (field_or_zero fields 1)
                    (field_or_zero fields 2)).
Proof.
  intros Hall. unfold parse_hpa.
  destruct (truthy (hpa_line fields)) eqn:Ht.
  - assert (fields <> []) as Hne by (intros ->; discriminate).
    cbv zeta. rewrite split_hpa_line, length_map by assumption.
    rewrite (hpa_field_show fields 0 true), bind_ret_l; try assumption;
      [|intros _; destruct fields; [contradiction | simpl; lia] | discriminate].
    rewrite (hpa_field_show fields 1), bind_ret_l; try assumption;
      [|intros H; apply Nat.ltb_lt in H; lia | intros H; apply Nat.ltb_ge in H; lia].
    rewrite (hpa_field_show fields 2), bind_ret_l; try assumption;
      [|intros H; apply Nat.ltb_lt in H; lia | intros H; apply Nat.ltb_ge in H; lia].
    reflexivity.
  - rewrite !(hpa_line_empty fields Ht). reflexivity.
Qed.

(** C4. On the status line of comma-separated integers, followed by any white
    space, [get_hpa_status] returns the record with the three keys where a
    field holds its integer, and 0 when the field is empty or, being a
    trailing one, missing. *)
Theorem get_hpa_status_fields (self : AutoscalingDemo)
    (fields : list (option Z)) (ws : string) :
  Forall int32_field fields ->
  has_ink ws = false ->
  get_hpa_status self (Exited 0 (hpa_line fields +:+ ws))
  = ([Exec (kubectl_cmd self ++ hpa_query)],
     Ret (hpa_sample (field_or_zero fields 0) (field_or_zero fields 1)
                     (field_or_zero fields 2))).
Proof.
  intros Hall Hws.
  rewrite get_hpa_status_unfold, run_kubectl_ok.
  rewrite (strip_app_blank _ _ (hpa_line_no_space fields) Hws).
  unfold bind. rewrite parse_hpa_line by assumption. reflexivity.
Qed.

Lemma get_hpa_status_fields_witness :
  get_hpa_status (new_demo "http://app" None)
    (Exited 0 (hpa_line [Some 2; None] +:+ nl))
  = ([Exec (["kubectl"] ++ hpa_query)], Ret (hpa_sample 2 0 0)).
Proof.
  apply (get_hpa_status_fields (new_demo "http://app" None) [Some 2; None] nl).
  - repeat constructor; simpl; lia.
  - reflexivity.
Defined.

(** ** The burst of scenario 4 *)

Lemma launch_spec url n i :
  launch url i n = (flat_map (launch_effects url) (seq i n), Ret (seq i n)).
Proof.
  revert i. induction n as [|n IH]; intros i; [reflexivity|].
  cbn [launch seq flat_map]. rewrite !bind_emit, IH.
  unfold bind, ret, effects, outcome, launch_effects. cbn [fst snd app].
  rewrite app_nil_r. reflexivity.
Qed.

Lemma gather_all_settled outs :
  Forall (fun o => o <> NeverSettles) outs ->
  gather true outs = Ret (map as_value outs).
Proof.
  intros Hall. unfold gather.
  assert (existsb never_settles outs = false) as ->; [|reflexivity].
  induction Hall as [|o outs Ho _ IH]; [reflexivity|].
  simpl. rewrite IH. destruct o; try reflexivity. contradiction.
Qed.

Lemma gather_blocks_on_pending re outs :
  first_failure outs = None ->
  Exists (fun o => o = NeverSettles) outs ->
  gather re outs = Blocks.
Proof.
  intros Hff Hex. unfold gather. rewrite Hff.
  assert (existsb never_settles outs = true) as ->; [|destruct re; reflexivity].
  induction Hex as [o outs ->|o outs _ IH]; [reflexivity|].
  simpl. destruct o; simpl in *; try discriminate; auto.
Qed.

(** Without [return_exceptions] one failing request would be raised. *)
Lemma gather_without_flag_raises :
  gather false [Responds 200; Fails OtherError; Responds 200] = Raise OtherError.
Proof. reflexivity. Qed.

Lemma cpu_intensive_load_settles url reply :
  (forall i, (i < request_count)%nat -> reply i <> NeverSettles) ->
  cpu_intensive_load url reply
  = (burst_events url, Ret (map (fun i => as_value (reply i)) (seq 0 50))).
Proof.
  intros Hsettle. unfold cpu_intensive_load, burst_events.
  rewrite (bind_effects_ret (launch url 0 request_count) _ (seq 0 request_count))
    by (rewrite launch_spec; reflexivity).
  rewrite launch_spec. cbn [effects outcome fst snd].
  rewrite bind_emit. unfold lift, effects, outcome. cbn [fst snd].
  rewrite length_seq, gather_all_settled.
  - rewrite map_map. reflexivity.
  - apply Forall_map, Forall_forall. intros i Hi. simpl.
    apply Hsettle. apply elem_of_seq in Hi. lia.
Qed.

Lemma cpu_intensive_load_effects url reply :
  effects (cpu_intensive_load url reply) = burst_events url.
Proof.
  unfold cpu_intensive_load, burst_events.
  rewrite (bind_effects_ret (launch url 0 request_count) _ (seq 0 request_count))
    by (rewrite launch_spec; reflexivity).
  rewrite launch_spec. cbn [effects outcome fst snd].
  rewrite bind_emit. unfold lift, effects, outcome. cbn [fst snd].
  rewrite length_seq. reflexivity.
Qed.

Lemma cpu_intensive_load_pending url reply i :
  (i < request_count)%nat -> reply i = NeverSettles ->
  outcome (cpu_intensive_load url reply) = Blocks.
Proof.
  intros Hi Hr. unfold cpu_intensive_load.
  rewrite (bind_effects_ret (launch url 0 request_count) _ (seq 0 request_count))
    by (rewrite launch_spec; reflexivity).
  rewrite launch_spec. cbn [effects outcome fst snd].
  rewrite bind_emit. unfold lift, effects, outcome. cbn [fst snd].
  unfold gather.
  assert (existsb never_settles (map reply (seq 0 request_count)) = true) as ->;
    [|reflexivity].
  apply existsb_exists. exists NeverSettles. split; [|reflexivity].
  rewrite <- Hr. apply in_map, in_seq. lia.
Qed.

(** C7. The burst creates exactly 50 tasks, sleeps a tenth of a second after
    each, and then gathers all 50 with [return_exceptions]. When every
    request settles, by an answer or by an exception, the call returns the
    50 results, exceptions among them, and raises nothing; as long as a
    request has not settled the call does not return. *)
Theorem cpu_intensive_load_batch (url : string) (reply : nat -> task_outcome) :
  request_count = 50%nat /\
  effects (cpu_intensive_load url reply)
  = flat_map (launch_effects url) (seq 0 50) ++ [Gather 50 true] /\
  ((forall i, (i < request_count)%nat -> reply i <> NeverSettles) ->
   outcome (cpu_intensive_load url reply)
   = Ret (map (fun i => as_value (reply i)) (seq 0 50))) /\
  ((exists i, (i < request_count)%nat /\ reply i = NeverSettles) ->
   outcome (cpu_intensive_load url reply) = Blocks).
Proof.
  split; [reflexivity|]. split; [apply cpu_intensive_load_effects|]. split.
  - intros Hsettle. rewrite (cpu_intensive_load_settles url reply Hsettle). reflexivity.
  - intros (i & Hi & Hr). exact (cpu_intensive_load_pending url reply i Hi Hr).
Qed.

Lemma cpu_intensive_load_batch_witness :
  outcome (cpu_intensive_load "http://app"
             (fun i => if (i =? 3)%nat then Fails OtherError else Responds 200))
  = Ret (map (fun i => as_value (if (i =? 3)%nat then Fails OtherError else Responds 200))
             (seq 0 50)).
Proof.
  apply (proj1 (proj2 (proj2
           (cpu_intensive_load_batch "http://app"
              (fun i => if (i =? 3)%nat then Fails OtherError else Responds 200))))).
  intros i _. destruct (i =? 3)%nat; discriminate.
Defined.

(** ** The report *)

Lemma report_entry_usable fs i entry :
  (i < 3)%nat ->
  fs !! entry.1 <> Some Broken ->
  report_entry fs i entry = (entry_trace fs i entry, Ret tt).
Proof.
  intros Hi Hok. unfold report_entry, entry_trace. destruct entry as [filename title].
  simpl in *. destruct (fs !! filename) as [[d|]|]; [|contradiction|reflexivity].
  destruct (stats d); [|reflexivity].
  apply Nat.ltb_lt in Hi. rewrite Hi. reflexivity.
Qed.

Lemma generate_demo_report_trace fs :
  (forall filename, fs !! filename <> Some Broken) ->
  generate_demo_report fs = (report_events fs, Ret tt).
Proof.
  intros Hok. unfold generate_demo_report, scenarios, report_events.
  cbn [for_enumerate].
  rewrite !bind_emit.
  rewrite !report_entry_usable by (try lia; apply Hok).
  unfold bind, ret, emit, effects, outcome, report_head, report_tail.
  cbn [fst snd]. rewrite !app_nil_r, <- !app_assoc. reflexivity.
Qed.

Lemma missing_file_message fs filename title :
  (filename, title) ∈ scenarios ->
  fs !! filename = None ->
  Print (not_found_message filename) ∈ report_events fs.
Proof.
  intros Hin Hnone. unfold report_events, entry_trace.
  unfold scenarios in Hin. rewrite !elem_of_cons in Hin.
  destruct Hin as [Hin|[Hin|[Hin|Hin]]]; [| | |by apply elem_of_nil in Hin];
    injection Hin as -> ->; cbn [fst snd]; rewrite Hnone;
    rewrite !elem_of_app, !elem_of_cons; auto 10.
Qed.

(** C10. Whatever subset of the three result files is missing, as long as
    the files that are there can be read, the report is produced: each
    missing file gives its message and is skipped, each file that is there
    gives its histogram, and the figure is saved. *)
Theorem generate_demo_report_skips_missing (fs : gmap string file) :
  (forall filename, fs !! filename <> Some Broken) ->
  generate_demo_report fs
  = (report_head
       ++ entry_trace fs 0 ("scenario1_results.json", "Gradual Ramp")
       ++ entry_trace fs 1 ("scenario2_results.json", "Load Spikes")
       ++ entry_trace fs 2 ("scenario3_results.json", "Sustained Load")
       ++ report_tail,
     Ret tt)
  /\ (forall filename title,
        (filename, title) ∈ scenarios ->
        fs !! filename = None ->
        Print (not_found_message filename) ∈ effects (generate_demo_report fs))
  /\ Savefig report_file ∈ effects (generate_demo_report fs).
Proof.
  intros Hok. rewrite (generate_demo_report_trace fs Hok).
  split; [reflexivity|]. split.
  - intros filename title Hin Hnone. cbn [effects fst].
    exact (missing_file_message fs filename title Hin Hnone).
  - cbn [effects fst]. unfold report_events, report_tail.
    rewrite !elem_of_app, !elem_of_cons. auto 10.
Qed.

Lemma generate_demo_report_skips_missing_witness :
  generate_demo_report only_scenario2
  = (report_head
       ++ entry_trace only_scenario2 0 ("scenario1_results.json", "Gradual Ramp")
       ++ entry_trace only_scenario2 1 ("scenario2_results.json", "Load Spikes")
       ++ entry_trace only_scenario2 2 ("scenario3_results.json", "Sustained Load")
       ++ report_tail,
     Ret tt)
  /\ (forall filename title,
        (filename, title) ∈ scenarios ->
        only_scenario2 !! filename = None ->
        Print (not_found_message filename)
          ∈ effects (generate_demo_report only_scenario2))
  /\ Savefig report_file ∈ effects (generate_demo_report only_scenario2).
Proof.
  apply (generate_demo_report_skips_missing only_scenario2).
  intros filename. unfold only_scenario2.
  destruct (decide (filename = "scenario2_results.json")) as [->|Hne].
  - rewrite lookup_singleton_eq. discriminate.
  - rewrite lookup_singleton_ne by congruence. discriminate.
Defined.

Example report_with_two_files_missing :
  generate_demo_report only_scenario2
  = (report_head
       ++ [Print "Results file scenario1_results.json not found"]
       ++ [Hist 0 1 "Load Spikes" (1000 # 100) [1000 # 100]]
       ++ [Print "Results file scenario3_results.json not found"]
       ++ report_tail,
     Ret tt).
Proof. vm_compute. reflexivity. Qed.

(** Another exception than FileNotFoundError is not caught by the loop. *)
Example report_broken_file_raises :
  outcome (generate_demo_report {[ "scenario1_results.json" := Broken ]})
  = Raise OtherError.
Proof. vm_compute. reflexivity. Qed.

(** ** The main process and its children *)

Lemma main_events_app a b : main_events (a ++ b) = main_events a ++ main_events b.
Proof. apply omap_app. Qed.

Lemma main_events_children pid es : main_events (map (Child pid) es) = [].
Proof. induction es as [|e es IH]; [reflexivity | exact IH]. Qed.

Lemma main_events_main es : main_events (map Main es) = es.
Proof. induction es as [|e es IH]; [reflexivity | simpl; f_equal; exact IH]. Qed.

Lemma bg_step_main w b : main_events (trace (bg_step w b)) = main_events (trace w).
Proof.
  destruct b as [pid t|pid]; simpl; destruct (procs w !! pid) as [p|]; try reflexivity.
  - destruct (turn p t) as [p' es]. simpl.
    rewrite main_events_app, main_events_children. apply app_nil_r.
  - destruct (p_sigterm p); reflexivity.
Qed.

Lemma bg_step_next_pid w b : next_pid (bg_step w b) = next_pid w.
Proof.
  destruct b as [pid t|pid]; simpl; destruct (procs w !! pid) as [p|]; try reflexivity.
  - destruct (turn p t) as [p' es]. reflexivity.
  - destruct (p_sigterm p); reflexivity.
Qed.

Lemma bg_run_main w bs : main_events (trace (bg_run w bs)) = main_events (trace w).
Proof.
  revert w. induction bs as [|b bs IH]; intros w; [reflexivity|].
  simpl. rewrite IH. apply bg_step_main.
Qed.

Lemma bg_run_next_pid w bs : next_pid (bg_run w bs) = next_pid w.
Proof.
  revert w. induction bs as [|b bs IH]; intros w; [reflexivity|].
  simpl. rewrite IH. apply bg_step_next_pid.
Qed.

Lemma bg_run_stable I w bs : stable I -> I (procs w) -> I (procs (bg_run w bs)).
Proof.
  intros HI. revert w. induction bs as [|b bs IH]; intros w Hw; [exact Hw|].
  simpl. apply IH, HI, Hw.
Qed.

Lemma bg_run_app w bs1 bs2 : bg_run w (bs1 ++ bs2) = bg_run (bg_run w bs1) bs2.
Proof. apply fold_left_app. Qed.

Lemma turn_sigterm p t : p_sigterm (turn p t).1 = p_sigterm p.
Proof.
  unfold turn. destruct (p_state p) as [|start [|e es] r| |]; try reflexivity.
  - destruct r; try reflexivity.
    destruct (in_time start (p_duration p) (now t)); [|reflexivity].
    destruct (poll (p_demo p) t). reflexivity.
Qed.

Lemma turn_dead p t : p_state p = Dead -> turn p t = (p, []).
Proof. unfold turn. intros ->. reflexivity. Qed.

Lemma stable_has_proc pid : stable (has_proc pid).
Proof.
  intros w b [p Hp]. unfold has_proc.
  destruct b as [q t|q]; simpl; destruct (procs w !! q) as [p'|] eqn:E; eauto.
  - destruct (turn p' t) as [p'' es]. simpl.
    destruct (decide (q = pid)) as [->|Hne];
      [rewrite lookup_insert_eq | rewrite lookup_insert_ne by exact Hne]; eauto.
  - destruct (p_sigterm p'); simpl; eauto.
    destruct (decide (q = pid)) as [->|Hne];
      [rewrite lookup_insert_eq | rewrite lookup_insert_ne by exact Hne]; eauto.
Qed.

Lemma stable_stopping pid : stable (stopping pid).
Proof.
  intros w b (p & Hp & Hs). unfold stopping.
  destruct b as [q t|q]; simpl; destruct (procs w !! q) as [p'|] eqn:E; eauto.
  - destruct (turn p' t) as [p'' es] eqn:Et. simpl.
    destruct (decide (q = pid)) as [->|Hne].
    + rewrite lookup_insert_eq. eexists; split; [reflexivity|].
      assert (p' = p) as -> by congruence.
      destruct Hs as [Hd|Hsig].
      * rewrite (turn_dead p t Hd) in Et. injection Et as <- _. auto.
      * right. pose proof (turn_sigterm p t) as H. rewrite Et in H. simpl in H. congruence.
    + rewrite lookup_insert_ne by exact Hne. eauto.
  - destruct (p_sigterm p') eqn:Esig; simpl; eauto.
    destruct (decide (q = pid)) as [->|Hne].
    + rewrite lookup_insert_eq. eexists; split; [reflexivity|]. left. reflexivity.
    + rewrite lookup_insert_ne by exact Hne. eauto.
Qed.

Lemma stable_dead pid : stable (dead pid).
Proof.
  intros w b (p & Hp & Hd). unfold dead.
  destruct b as [q t|q]; simpl; destruct (procs w !! q) as [p'|] eqn:E; eauto.
  - destruct (turn p' t) as [p'' es] eqn:Et. simpl.
    destruct (decide (q = pid)) as [->|Hne].
    + rewrite lookup_insert_eq. eexists; split; [reflexivity|].
      assert (p' = p) as -> by congruence.
      rewrite (turn_dead p t Hd) in Et. injection Et as <- _. exact Hd.
    + rewrite lookup_insert_ne by exact Hne. eauto.
  - destruct (p_sigterm p') eqn:Esig; simpl; eauto.
    destruct (decide (q = pid)) as [->|Hne].
    + rewrite lookup_insert_eq. eexists; split; reflexivity.
    + rewrite lookup_insert_ne by exact Hne. eauto.
Qed.

Lemma stable_true : stable (fun _ => True).
Proof. intros w b _. exact I. Qed.

(** Delivery of the signal kills a child that is stopping. *)
Lemma deliver_kills pid w :
  stopping pid (procs w) -> dead pid (procs (bg_step w (Deliver pid))).
Proof.
  intros (p & Hp & Hs). unfold dead. simpl. rewrite Hp.
  destruct (p_sigterm p) eqn:Esig.
  - simpl. rewrite lookup_insert_eq. eexists; split; reflexivity.
  - destruct Hs as [Hd|Hsig]; [eauto | congruence].
Qed.

(** A dead child does nothing. *)
Lemma dead_is_silent pid w bs :
  dead pid (procs w) ->
  child_events pid (trace (bg_run w bs)) = child_events pid (trace w).
Proof.
  revert w. induction bs as [|b bs IH]; intros w Hd; [reflexivity|].
  simpl. rewrite IH by (apply stable_dead; exact Hd).
  destruct Hd as (p & Hp & Hd).
  destruct b as [q t|q]; simpl; destruct (procs w !! q) as [p'|] eqn:E; try reflexivity.
  - destruct (turn p' t) as [p'' es] eqn:Et. simpl.
    unfold child_events. rewrite omap_app.
    destruct (decide (q = pid)) as [->|Hne].
    + assert (p' = p) as -> by congruence.
      rewrite (turn_dead p t Hd) in Et. injection Et as _ <-. simpl. apply app_nil_r.
    + assert (omap (fun o => match o with
                             | Child q0 e => if decide (q0 = pid) then Some e else None
                             | Main _ => None
                             end) (map (Child q) es) = []) as ->; [|apply app_nil_r].
      clear Et. induction es as [|e es IHes]; [reflexivity|].
      simpl. destruct (decide (q = pid)); [contradiction | exact IHes].
  - destruct (p_sigterm p'); reflexivity.
Qed.

(** ** A program logic for the main process *)

Section Orchestration.

Variable env : Env.

(** The load generator exits and every request of the burst settles. *)
Hypothesis loads_exit : forall n, exists code out, load_reply env n = Exited code out.
Hypothesis posts_settle :
  forall i, (i < request_count)%nat -> post_reply env i <> NeverSettles.

Abbreviation hoare := (triple env).

Lemma hoare_bind {A B : Type} P (m : prog A) Q (k : A -> prog B) R :
  hoare P m Q -> (forall a, hoare (Q a) (k a) R) -> hoare P (pbind m k) R.
Proof.
  intros Hm Hk w Hw. destruct (Hm w Hw) as (a & w1 & E1 & H1).
  destruct (Hk a w1 H1) as (b & w2 & E2 & H2).
  exists b, w2. split; [|exact H2]. unfold pbind. rewrite E1. exact E2.
Qed.

Lemma hoare_post {A : Type} P (m : prog A) (Q Q' : A -> world -> Prop) :
  hoare P m Q -> (forall a w, Q a w -> Q' a w) -> hoare P m Q'.
Proof.
  intros Hm HQ w Hw. destruct (Hm w Hw) as (a & w' & E & H). eauto.
Qed.

Lemma hoare_pret {A : Type} (P : world -> Prop) (a : A) :
  hoare P (pret a) (fun _ w => P w).
Proof. intros w Hw. exists a, w. split; [reflexivity | exact Hw]. Qed.

Lemma enter_holds t n I w : stable I -> holds t n I w -> holds t n I (enter env w).
Proof.
  intros HI (Ht & Hn & Hp). unfold holds, enter. simpl.
  rewrite bg_run_main, bg_run_next_pid. repeat split; try assumption.
  apply bg_run_stable; assumption.
Qed.

Lemma log_holds t n I w es :
  holds t n I w -> holds (t ++ es) n I (log w (map Main es)).
Proof.
  intros (Ht & Hn & Hp). unfold holds, log. simpl.
  rewrite main_events_app, main_events_main, Ht. auto.
Qed.

Lemma print_rule t n I line :
  stable I ->
  hoare (holds t n I) (print line) (fun _ => holds (t ++ [Print line]) n I).
Proof.
  intros HI w Hw. exists tt, (log (enter env w) [Main (Print line)]).
  split; [reflexivity|].
  apply (log_holds t n I _ [Print line]), enter_holds; assumption.
Qed.

Lemma sleep_rule t n I s :
  stable I ->
  hoare (holds t n I) (sleep s) (fun _ => holds (t ++ [Sleep s]) n I).
Proof.
  intros HI w Hw. exists tt, (log (enter env w) [Main (Sleep s)]).
  split; [reflexivity|].
  apply (log_holds t n I _ [Sleep s]), enter_holds; assumption.
Qed.

Lemma subprocess_run_rule t n I argv :
  stable I ->
  hoare (holds t n I) (subprocess_run argv) (fun _ => holds (t ++ [Exec argv]) n I).
Proof.
  intros HI w Hw. exists tt, (log (enter env w) [Main (Exec argv)]).
  split.
  - unfold subprocess_run. destruct (loads_exit (calls w)) as (c & o & ->). reflexivity.
  - apply (log_holds t n I _ [Exec argv]), enter_holds; assumption.
Qed.

Lemma run_io_rule {A : Type} t n I (m : Env -> io A) es a :
  stable I ->
  m env = (es, Ret a) ->
  hoare (holds t n I) (run_io m) (fun _ => holds (t ++ es) n I).
Proof.
  intros HI Hm w Hw. exists a, (log (enter env w) (map Main es)).
  split.
  - unfold run_io. rewrite Hm. reflexivity.
  - apply log_holds, enter_holds; assumption.
Qed.

Lemma popen_pid t n I argv :
  stable I ->
  hoare (holds t n I) (popen argv)
        (fun pid w => pid = n /\ holds (t ++ [Popen n argv]) (S n) (has_proc pid) w).
Proof.
  intros HI w Hw. eexists _, _. split; [reflexivity|].
  destruct (enter_holds t n I w HI Hw) as (Ht & Hn & _).
  split; [exact Hn|].
  unfold holds. cbn [trace next_pid procs]. rewrite main_events_app, Ht, Hn.
  repeat split. unfold has_proc. rewrite lookup_insert_eq. eauto.
Qed.

Lemma terminate_rule t n pid :
  hoare (holds t n (has_proc pid)) (terminate pid)
        (fun _ => holds (t ++ [Terminate pid]) n (stopping pid)).
Proof.
  intros w Hw.
  pose proof (log_holds t n (has_proc pid) _ [Terminate pid]
                (enter_holds t n _ w (stable_has_proc pid) Hw)) as H1.
  unfold terminate. cbv zeta.
  change (map Main [Terminate pid]) with [Main (Terminate pid)] in H1.
  set (w1 := log (enter env w) [Main (Terminate pid)]) in *.
  destruct H1 as (Ht & Hn & [p Hp]). rewrite Hp.
  destruct (p_state p) eqn:Es;
    eexists tt, _; (split; [reflexivity|]); unfold holds;
    cbn [set_proc trace next_pid procs];
    (repeat split; [exact Ht | exact Hn |]); unfold stopping.
  1-3: rewrite lookup_insert_eq; eexists; split; [reflexivity | right; reflexivity].
  exists p. auto.
Qed.

Lemma load_phase_rule t n I k self :
  stable I ->
  hoare (holds t n I) (load_phase k self)
        (fun _ => holds (t ++ match load_argv k (app_url self) with
                             | Some argv => [Exec argv]
                             | None => burst_events (app_url self)
                             end) n I).
Proof.
  intros HI. unfold load_phase. destruct (load_argv k (app_url self)) as [argv|].
  - apply subprocess_run_rule. exact HI.
  - eapply hoare_bind.
    + eapply run_io_rule; [exact HI|].
      apply cpu_intensive_load_settles. exact posts_settle.
    + intros a. apply hoare_pret.
Qed.

(** One scenario, from any state of the world. *)
Lemma run_scenario_rule t n I k self :
  stable I ->
  hoare (holds t n I) (run_scenario k self)
        (fun _ => holds (t ++ scenario_events k self (executable env) (script env) n)
                        (S n) (stopping n)).
Proof.
  intros HI. unfold run_scenario, scenario_events.
  eapply hoare_bind; [apply print_rule, HI|]. intros [].
  eapply hoare_bind; [apply print_rule, HI|]. intros [].
  eapply hoare_bind; [apply print_rule, HI|]. intros [].
  eapply hoare_bind; [apply print_rule, HI|]. intros [].
  eapply hoare_bind; [apply popen_pid, HI|]. intros pid.
  intros w [-> Hw]. revert w Hw.
  eapply hoare_bind; [apply print_rule, stable_has_proc|]. intros [].
  eapply hoare_bind; [apply load_phase_rule, stable_has_proc|]. intros [].
  eapply hoare_bind; [apply terminate_rule|]. intros [].
  eapply hoare_post; [apply print_rule, stable_stopping|].
  intros [] w. rewrite <- !app_assoc. simpl. auto.
Qed.

End Orchestration.

(** ** The scenarios and their monitor *)

Lemma scenario_unfold k : scenario k = run_scenario k.
Proof. destruct k; reflexivity. Qed.

Lemma holds_start w : holds (main_events (trace w)) (next_pid w) (fun _ => True) w.
Proof. repeat split. Qed.

(** C1, as the code has it. When the load of a scenario has ended, the
    scenario sends SIGTERM to its monitor child with [terminate], prints its
    last line and returns; it does not wait for the child. At the return the
    child is dead or has the signal pending, and from the delivery of the
    signal on the child does nothing more. *)
Theorem scenario_signals_monitor (env : Env) (k : scenario_id)
    (self : AutoscalingDemo) (w : world) :
  (forall n, exists code out, load_reply env n = Exited code out) ->
  (forall i, (i < request_count)%nat -> post_reply env i <> NeverSettles) ->
  exists w',
    scenario k self env w = (Ret tt, w') /\
    main_events (trace w')
    = main_events (trace w)
        ++ scenario_events k self (executable env) (script env) (next_pid w) /\
    stopping (next_pid w) (procs w') /\
    forall before after,
      child_events (next_pid w)
        (trace (bg_run w' (before ++ Deliver (next_pid w) :: after)))
      = child_events (next_pid w)
          (trace (bg_run w' (before ++ [Deliver (next_pid w)]))).
Proof.
  intros Hload Hpost. rewrite scenario_unfold.
  destruct (run_scenario_rule env Hload Hpost _ _ _ k self stable_true w (holds_start w))
    as ([] & w' & Erun & Ht & _ & Hstop).
  exists w'. repeat split; try assumption.
  intros before after.
  rewrite (bg_run_app w' before (Deliver (next_pid w) :: after)).
  rewrite (bg_run_app w' before [Deliver (next_pid w)]).
  change (bg_run ?x (Deliver ?p :: after)) with (bg_run (bg_step x (Deliver p)) after).
  apply dead_is_silent, deliver_kills, bg_run_stable; [apply stable_stopping | exact Hstop].
Qed.

Lemma scenario_signals_monitor_witness :
  exists w',
    scenario S1 (new_demo "http://app" None) racing_env init_world = (Ret tt, w') /\
    main_events (trace w')
    = main_events (trace init_world)
        ++ scenario_events S1 (new_demo "http://app" None) (executable racing_env)
             (script racing_env) (next_pid init_world) /\
    stopping (next_pid init_world) (procs w') /\
    forall before after,
      child_events (next_pid init_world)
        (trace (bg_run w' (before ++ Deliver (next_pid init_world) :: after)))
      = child_events (next_pid init_world)
          (trace (bg_run w' (before ++ [Deliver (next_pid init_world)]))).
Proof.
  apply (scenario_signals_monitor racing_env S1 (new_demo "http://app" None) init_world).
  - intros n. exists 0, "". reflexivity.
  - intros i _. discriminate.
Defined.

(** C1 fails as stated. In scenario 1, with a load that ends while the
    monitor is in a turn of its loop, the scenario returns with the monitor
    child alive, and after the return the child still runs its two kubectl
    queries and prints a status line. *)
Lemma monitor_polls_after_scenario_returns :
  let run := scenario S1 (new_demo "http://app" None) racing_env init_world in
  run.1 = Ret tt /\
  (exists p, procs run.2 !! 0%nat = Some p /\ p_state p <> Dead) /\
  child_events 0
    (trace (bg_run run.2 [MonitorTurn 0 (sample_tick 2); MonitorTurn 0 (sample_tick 2);
                          MonitorTurn 0 (sample_tick 2)]))
  = child_events 0 (trace run.2)
      ++ [ Exec (["kubectl"] ++ pods_query);
           Exec (["kubectl"] ++ hpa_query);
           Print "10:00:00             1      70     3        Scaling Up" ].
Proof.
  cbv zeta. split; [vm_compute; reflexivity|]. split.
  - eexists. split; [vm_compute; reflexivity | discriminate].
  - vm_compute. reflexivity.
Qed.

(** ** Durations *)

Arguments Py.int : simpl never.

Lemma int_durations :
  Py.int "600" = Ret 600 /\ Py.int "480" = Ret 480 /\
  Py.int "300" = Ret 300 /\ Py.int "180" = Ret 180.
Proof. repeat split; vm_compute; reflexivity. Qed.




(** ** The command [all] *)

(** C8. The command [all] runs scenario 1, 2, 3 and 4 in this order, sleeps
    30 seconds between two consecutive scenarios, and produces the report
    after scenario 4 and not before. *)
Theorem main_all_in_sequence (env : Env) (args : Args) :
  command args = "all" ->
  (forall n, exists code out, load_reply env n = Exited code out) ->
  (forall i, (i < request_count)%nat -> post_reply env i <> NeverSettles) ->
  (forall filename, files env !! filename <> Some Broken) ->
  exists w',
    main args env init_world = (Ret tt, w') /\
    main_events (trace w')
    = all_header
        ++ scenario_events S1 (new_demo (url args) (kubectl_context_arg args))
             (executable env) (script env) 0
        ++ [Sleep 30]
        ++ scenario_events S2 (new_demo (url args) (kubectl_context_arg args))
             (executable env) (script env) 1
        ++ [Sleep 30]
        ++ scenario_events S3 (new_demo (url args) (kubectl_context_arg args))
             (executable env) (script env) 2
        ++ [Sleep 30]
        ++ scenario_events S4 (new_demo (url args) (kubectl_context_arg args))
             (executable env) (script env) 3
        ++ report_events (files env).
Proof.
  intros Hcmd Hload Hpost Hfiles.
  set (demo := new_demo (url args) (kubectl_context_arg args)).
  assert (triple env (holds [] 0%nat (fun _ => True)) (main args)
            (fun _ => holds
               (all_header
                  ++ scenario_events S1 demo (executable env) (script env) 0
                  ++ [Sleep 30]
                  ++ scenario_events S2 demo (executable env) (script env) 1
                  ++ [Sleep 30]
                  ++ scenario_events S3 demo (executable env) (script env) 2
                  ++ [Sleep 30]
                  ++ scenario_events S4 demo (executable env) (script env) 3
                  ++ report_events (files env))
               4%nat (fun _ => True))) as Hmain.
  { unfold main. rewrite Hcmd. cbn [String.eqb Ascii.eqb Bool.eqb]. fold demo.
    pose proof (fun t n I k => run_scenario_rule env Hload Hpost t n I k demo) as Hsc.
    eapply hoare_bind; [apply print_rule, stable_true|]. intros [].
    eapply hoare_bind; [apply print_rule, stable_true|]. intros [].
    eapply hoare_bind; [apply (Hsc _ _ _ S1), stable_true|]. intros [].
    eapply hoare_bind; [apply sleep_rule, stable_stopping|]. intros [].
    eapply hoare_bind; [apply (Hsc _ _ _ S2), stable_stopping|]. intros [].
    eapply hoare_bind; [apply sleep_rule, stable_stopping|]. intros [].
    eapply hoare_bind; [apply (Hsc _ _ _ S3), stable_stopping|]. intros [].
    eapply hoare_bind; [apply sleep_rule, stable_stopping|]. intros [].
    eapply hoare_bind; [apply (Hsc _ _ _ S4), stable_stopping|]. intros [].
    eapply hoare_post.
    - eapply run_io_rule; [apply stable_stopping|].
      apply generate_demo_report_trace. exact Hfiles.
    - intros [] w (Ht & Hn & _). repeat split; [|exact Hn].
      rewrite Ht. unfold all_header. rewrite <- !app_assoc. reflexivity. }
  destruct (Hmain init_world) as ([] & w' & Erun & Ht & _); [repeat split|].
  exists w'. split; assumption.
Qed.

Lemma main_all_in_sequence_witness :
  exists w',
    main all_args quiet_env init_world = (Ret tt, w') /\
    main_events (trace w')
    = all_header
        ++ scenario_events S1 (new_demo (url all_args) (kubectl_context_arg all_args))
             (executable quiet_env) (script quiet_env) 0
        ++ [Sleep 30]
        ++ scenario_events S2 (new_demo (url all_args) (kubectl_context_arg all_args))
             (executable quiet_env) (script quiet_env) 1
        ++ [Sleep 30]
        ++ scenario_events S3 (new_demo (url all_args) (kubectl_context_arg all_args))
             (executable quiet_env) (script quiet_env) 2
        ++ [Sleep 30]
        ++ scenario_events S4 (new_demo (url all_args) (kubectl_context_arg all_args))
             (executable quiet_env) (script quiet_env) 3
        ++ report_events (files quiet_env).
Proof.
  apply (main_all_in_sequence quiet_env all_args).
  - reflexivity.
  - intros n. exists 0, "". reflexivity.
  - intros i _. discriminate.
  - intros filename. simpl. rewrite lookup_empty. discriminate.
Defined.

(** * Further properties of the demo driver *)

(** ** The pod count and the loop of the monitor *)

Lemma strip_truthy s : truthy (Py.strip s) = has_ink s.
Proof. unfold Py.strip. rewrite rstrip_truthy. apply lstrip_has_ink. Qed.

(** X1. Whenever kubectl exits, with whatever status and output,
    [get_pod_count] returns a count that is not negative; the count is 0
    exactly when kubectl failed or printed nothing but white space. *)
Theorem get_pod_count_when_kubectl_exits (self : AutoscalingDemo) (code : Z)
    (stdout : string) :
  exists es n,
    get_pod_count self (Exited code stdout) = (es, Ret n) /\
    0 <= n /\
    (n = 0 <-> code <> 0 \/ has_ink stdout = false).
Proof.
  destruct (Z.eq_dec code 0) as [->|Hc].
  - eexists _, _. split.
    + apply (get_pod_count_of_output self _ _ _ (run_kubectl_ok self pods_query stdout)).
    + unfold line_count. rewrite strip_truthy.
      destruct (has_ink stdout); split; try lia; split; intros H; try lia; auto.
  - eexists _, _. split.
    + apply (get_pod_count_of_output self _ _ _
               (run_kubectl_nonzero self pods_query code stdout Hc)).
    + simpl. split; [lia|]. split; auto.
Qed.

Lemma get_pod_count_listing self lines :
  Forall pod_line lines ->
  get_pod_count self (Exited 0 (listing lines))
  = ([Exec (kubectl_cmd self ++ pods_query)], Ret (Z.of_nat (length lines))).
Proof.
  intros Hall.
  rewrite (get_pod_count_of_output self _ _ _ (run_kubectl_ok self pods_query _)).
  f_equal. f_equal. f_equal. unfold line_count.
  destruct lines as [|l ls]; [reflexivity|].
  destruct (strip_listing (l :: ls) Hall) as [Ht Hc]; [discriminate|].
  rewrite Ht, Hc. simpl. lia.
Qed.

Lemma get_hpa_status_line self fields :
  Forall int32_field fields ->
  get_hpa_status self (Exited 0 (hpa_line fields))
  = ([Exec (kubectl_cmd self ++ hpa_query)],
     Ret (hpa_sample (field_or_zero fields 0) (field_or_zero fields 1)
                     (field_or_zero fields 2))).
Proof.
  intros Hall.
  rewrite get_hpa_status_unfold, run_kubectl_ok.
  rewrite <- (str_app_nil_r (hpa_line fields)) at 1.
  rewrite (strip_app_blank _ "" (hpa_line_no_space fields) eq_refl).
  unfold bind. rewrite parse_hpa_line by assumption. reflexivity.
Qed.

Lemma poll_unfold self t :
  poll self t
  = bind (get_pod_count self (pods_reply t)) (fun pod_count =>
    bind (get_hpa_status self (hpa_reply t)) (fun hpa_status =>
    bind (status_label hpa_status) (fun status =>
    bind (dict_get hpa_status "cpu_utilization") (fun cpu =>
    bind (dict_get hpa_status "desired_replicas") (fun desired =>
    bind (emit (Print (status_line (wall t) pod_count cpu desired status)))
         (fun _ => emit (Sleep 10))))))).
Proof. reflexivity. Qed.

Lemma poll_on_sample self t e1 pods e2 c d u :
  get_pod_count self (pods_reply t) = (e1, Ret pods) ->
  get_hpa_status self (hpa_reply t) = (e2, Ret (hpa_sample c d u)) ->
  poll self t
  = (e1 ++ e2 ++ [Print (status_line (wall t) pods u d (label_of c d)); Sleep 10],
     Ret tt).
Proof.
  intros H1 H2. rewrite poll_unfold, H1. unfold bind at 1. rewrite H2.
  unfold bind at 1. rewrite status_label_sample, bind_ret_l.
  unfold dict_get. rewrite hpa_sample_cpu, hpa_sample_desired, !bind_ret_l.
  rewrite bind_emit. reflexivity.
Qed.

(** X2. One turn of the loop on a listing of n pods and a status line of the
    policy: the two queries, the status line with n, the CPU, the desired
    count and the label, then the sleep of 10 seconds. *)
Theorem poll_prints_the_sample (self : AutoscalingDemo) (t : tick)
    (lines : list string) (fields : list (option Z)) :
  Forall pod_line lines ->
  Forall int32_field fields ->
  pods_reply t = Exited 0 (listing lines) ->
  hpa_reply t = Exited 0 (hpa_line fields) ->
  poll self t
  = ([ Exec (kubectl_cmd self ++ pods_query);
       Exec (kubectl_cmd self ++ hpa_query);
       Print (status_line (wall t) (Z.of_nat (length lines))
                (field_or_zero fields 2) (field_or_zero fields 1)
                (label_of (field_or_zero fields 0) (field_or_zero fields 1)));
       Sleep 10 ],
     Ret tt).
Proof.
  intros Hl Hf Hp Hh.
  rewrite (poll_on_sample self t _ _ _ _ _ _
             (eq_trans (f_equal _ Hp) (get_pod_count_listing self lines Hl))
             (eq_trans (f_equal _ Hh) (get_hpa_status_line self fields Hf))).
  reflexivity.
Qed.

Lemma poll_prints_the_sample_witness :
  poll (new_demo "http://app" None)
    {| now := 0; pods_reply := Exited 0 (listing ["cloudapp-1  1/1  Running"]);
       hpa_reply := Exited 0 (hpa_line [Some 2; Some 3; None]); wall := "10:00:00" |}
  = ([ Exec (["kubectl"] ++ pods_query);
       Exec (["kubectl"] ++ hpa_query);
       Print (status_line "10:00:00" 1 0 3 (label_of 2 3));
       Sleep 10 ],
     Ret tt).
Proof.
  apply (poll_prints_the_sample (new_demo "http://app" None)
           {| now := 0; pods_reply := Exited 0 (listing ["cloudapp-1  1/1  Running"]);
              hpa_reply := Exited 0 (hpa_line [Some 2; Some 3; None]);
              wall := "10:00:00" |}
           ["cloudapp-1  1/1  Running"] [Some 2; Some 3; None]).
  - repeat constructor.
  - repeat constructor; simpl; lia.
  - reflexivity.
  - reflexivity.
Defined.

(** X3. When both kubectl queries of a turn fail, the failures are logged and
    the monitor goes on: it prints the line of 0 pods, 0 CPU and 0 desired
    with the label "Stable", and sleeps. *)
Theorem poll_on_failing_kubectl (self : AutoscalingDemo) (t : tick)
    (c1 c2 : Z) (o1 o2 : string) :
  c1 <> 0 -> c2 <> 0 ->
  pods_reply t = Exited c1 o1 ->
  hpa_reply t = Exited c2 o2 ->
  poll self t
  = ([ Exec (kubectl_cmd self ++ pods_query);
       LogKubectlError (kubectl_cmd self ++ pods_query) c1;
       Exec (kubectl_cmd self ++ hpa_query);
       LogKubectlError (kubectl_cmd self ++ hpa_query) c2;
       Print (status_line (wall t) 0 0 0 "Stable");
       Sleep 10 ],
     Ret tt).
Proof.
  intros H1 H2 Hp Hh.
  assert (get_hpa_status self (hpa_reply t)
          = ([Exec (kubectl_cmd self ++ hpa_query);
              LogKubectlError (kubectl_cmd self ++ hpa_query) c2],
             Ret (hpa_sample 0 0 0))) as Eh.
  { rewrite Hh, get_hpa_status_unfold, run_kubectl_nonzero by assumption. reflexivity. }
  rewrite (poll_on_sample self t _ _ _ _ _ _
             (eq_trans (f_equal _ Hp)
                (get_pod_count_of_output self _ _ _
                   (run_kubectl_nonzero self pods_query c1 o1 H1))) Eh).
  reflexivity.
Qed.

Lemma poll_on_failing_kubectl_witness :
  poll (new_demo "http://app" None)
    {| now := 0; pods_reply := Exited 1 ""; hpa_reply := Exited 1 "";
       wall := "10:00:00" |}
  = ([ Exec (["kubectl"] ++ pods_query);
       LogKubectlError (["kubectl"] ++ pods_query) 1;
       Exec (["kubectl"] ++ hpa_query);
       LogKubectlError (["kubectl"] ++ hpa_query) 1;
       Print (status_line "10:00:00" 0 0 0 "Stable");
       Sleep 10 ],
     Ret tt).
Proof.
  apply (poll_on_failing_kubectl (new_demo "http://app" None)
           {| now := 0; pods_reply := Exited 1 ""; hpa_reply := Exited 1 "";
              wall := "10:00:00" |} 1 1 "" ""); try lia; reflexivity.
Defined.

Lemma in_time_true start duration t :
  (t - start < inject_Z duration)%Q -> in_time start duration t = true.
Proof.
  intros H. unfold in_time.
  destruct (Qlt_le_dec (t - start) (inject_Z duration)) as [_|Hle]; [reflexivity|].
  exfalso. exact (Qlt_not_le _ _ H Hle).
Qed.

Lemma in_time_over start duration t :
  (inject_Z duration <= t - start)%Q -> in_time start duration t = false.
Proof.
  intros H. unfold in_time.
  destruct (Qlt_le_dec (t - start) (inject_Z duration)) as [Hlt|_]; [|reflexivity].
  exfalso. exact (Qlt_not_le _ _ Hlt H).
Qed.

Lemma monitor_loop_turns self duration start good (k : io unit) script :
  Forall (fun t => (now t - start < inject_Z duration)%Q
                   /\ outcome (poll self t) = Ret tt) good ->
  monitor_loop self start duration script = k ->
  monitor_loop self start duration (good ++ script)
  = (flat_map (fun t => effects (poll self t)) good ++ effects k, outcome k).
Proof.
  intros Hgood Hk. induction Hgood as [|t good [Ht Hp] _ IH].
  - simpl. rewrite Hk. destruct k. reflexivity.
  - cbn [app monitor_loop flat_map]. rewrite (in_time_true _ _ _ Ht).
    rewrite (bind_effects_ret _ _ tt Hp), IH.
    cbn [effects outcome fst snd]. rewrite <- app_assoc. reflexivity.
Qed.

(** X4. The monitor polls once per reading of the clock that lies within the
    duration, and returns at the first reading that does not: what it does
    is the header followed by the turns, in order; the readings after the
    last one are never asked for. *)
Theorem monitor_scaling_turns (self : AutoscalingDemo) (duration : Z)
    (start_time : Q) (good : list tick) (t_end : tick) (rest : list tick) :
  Forall (fun t => (now t - start_time < inject_Z duration)%Q
                   /\ outcome (poll self t) = Ret tt) good ->
  (inject_Z duration <= now t_end - start_time)%Q ->
  monitor_scaling self duration start_time (good ++ t_end :: rest)
  = (monitor_header ++ flat_map (fun t => effects (poll self t)) good, Ret tt).
Proof.
  intros Hgood Hend. unfold monitor_scaling, emits, bind.
  rewrite (monitor_loop_turns self duration start_time good (ret tt) _ Hgood).
  - simpl. rewrite app_nil_r. reflexivity.
  - cbn [monitor_loop]. rewrite (in_time_over _ _ _ Hend). reflexivity.
Qed.

Lemma monitor_scaling_turns_witness :
  monitor_scaling (new_demo "http://app" None) 15 0
    ([sample_tick 0; sample_tick 10] ++ sample_tick 20 :: [sample_tick 30])
  = (monitor_header
       ++ flat_map (fun t => effects (poll (new_demo "http://app" None) t))
            [sample_tick 0; sample_tick 10],
     Ret tt).
Proof.
  apply (monitor_scaling_turns (new_demo "http://app" None) 15 0
           [sample_tick 0; sample_tick 10] (sample_tick 20) [sample_tick 30]).
  - repeat constructor; vm_compute; reflexivity.
  - vm_compute. discriminate.
Defined.

(** X5. The loop has no handler: when the status query raises in a turn, after
    a pod count that returned, [monitor_scaling] raises the same exception at
    once; that turn prints no status line and no later turn is run. *)
Theorem monitor_scaling_dies_on_bad_status (self : AutoscalingDemo)
    (duration : Z) (start_time : Q) (good : list tick) (t : tick)
    (rest : list tick) (e : exn) :
  Forall (fun t => (now t - start_time < inject_Z duration)%Q
                   /\ outcome (poll self t) = Ret tt) good ->
  (now t - start_time < inject_Z duration)%Q ->
  returns (outcome (get_pod_count self (pods_reply t))) = true ->
  outcome (get_hpa_status self (hpa_reply t)) = Raise e ->
  monitor_scaling self duration start_time (good ++ t :: rest)
  = (monitor_header
       ++ flat_map (fun t => effects (poll self t)) good
       ++ effects (get_pod_count self (pods_reply t))
       ++ effects (get_hpa_status self (hpa_reply t)),
     Raise e).
Proof.
  intros Hgood Ht Hpods Hhpa. unfold monitor_scaling, emits, bind.
  rewrite (monitor_loop_turns self duration start_time good
             (effects (get_pod_count self (pods_reply t))
                ++ effects (get_hpa_status self (hpa_reply t)), Raise e) _ Hgood).
  - reflexivity.
  - cbn [monitor_loop]. rewrite (in_time_true _ _ _ Ht), poll_unfold.
    destruct (get_pod_count self (pods_reply t)) as [e1 [n| | |]]; try discriminate.
    destruct (get_hpa_status self (hpa_reply t)) as [e2 r]. simpl in Hhpa. subst r.
    reflexivity.
Qed.

Lemma monitor_scaling_dies_on_bad_status_witness :
  monitor_scaling (new_demo "http://app" None) 15 0
    ([sample_tick 0]
       ++ {| now := 10; pods_reply := Exited 0 "cloudapp-1"; hpa_reply := Exited 0 "unknown";
             wall := "10:00:10" |} :: [sample_tick 20])
  = (monitor_header
       ++ flat_map (fun t => effects (poll (new_demo "http://app" None) t)) [sample_tick 0]
       ++ effects (get_pod_count (new_demo "http://app" None) (Exited 0 "cloudapp-1"))
       ++ effects (get_hpa_status (new_demo "http://app" None) (Exited 0 "unknown")),
     Raise ValueError).
Proof.
  apply (monitor_scaling_dies_on_bad_status (new_demo "http://app" None) 15 0
           [sample_tick 0]
           {| now := 10; pods_reply := Exited 0 "cloudapp-1"; hpa_reply := Exited 0 "unknown";
              wall := "10:00:10" |} [sample_tick 20] ValueError).
  - repeat constructor; vm_compute; reflexivity.
  - vm_compute. reflexivity.
  - vm_compute. reflexivity.
  - vm_compute. reflexivity.
Defined.

(** ** The report *)

Ltac report_cases fs :=
  destruct (fs !! "scenario1_results.json") as [[[[?|] ?]|]|] eqn:?E1;
  destruct (fs !! "scenario2_results.json") as [[[[?|] ?]|]|] eqn:?E2;
  destruct (fs !! "scenario3_results.json") as [[[[?|] ?]|]|] eqn:?E3;
  unfold generate_demo_report, scenarios; cbn [for_enumerate];
  unfold report_entry; rewrite ?E1, ?E2, ?E3; cbn.

Ltac invert_elem H :=
  repeat (apply elem_of_cons in H as [H|H]; [try discriminate H|]);
  try (apply elem_of_nil in H; contradiction).

(** X6. Only FileNotFoundError is caught in the loop over the result files: a
    file that is there but cannot be read or lacks a key makes the report
    raise, and then no figure is saved. *)
Theorem generate_demo_report_aborts_on_broken_file (fs : gmap string file) :
  (exists filename title,
      (filename, title) ∈ scenarios /\ fs !! filename = Some Broken) ->
  outcome (generate_demo_report fs) = Raise OtherError /\
  Savefig report_file ∉ effects (generate_demo_report fs).
Proof.
  intros (filename & title & Hin & Hb).
  unfold scenarios in Hin. rewrite !elem_of_cons in Hin.
  destruct Hin as [Hin|[Hin|[Hin|Hin]]]; [| | |by apply elem_of_nil in Hin];
    injection Hin as -> ->;
    report_cases fs; try congruence;
    (split; [reflexivity | intros H; invert_elem H]).
Qed.

Lemma generate_demo_report_aborts_on_broken_file_witness :
  outcome (generate_demo_report {[ "scenario2_results.json" := Broken ]})
  = Raise OtherError /\
  Savefig report_file
    ∉ effects (generate_demo_report {[ "scenario2_results.json" := Broken ]}).
Proof.
  apply (generate_demo_report_aborts_on_broken_file
           {[ "scenario2_results.json" := Broken ]}).
  exists "scenario2_results.json", "Load Spikes". split.
  - unfold scenarios. rewrite !elem_of_cons. auto.
  - apply lookup_singleton_eq.
Defined.

(** X7. The histograms go to the cells (0,0), (0,1) and (1,0) of the figure, one
    per scenario and under its title; the cell (1,1), which holds the
    summary, never gets a histogram, whatever the files hold. *)
Theorem generate_demo_report_cells (fs : gmap string file) (row col : nat)
    (title : string) (avg : Q) (points : list Q) :
  Hist row col title avg points ∈ effects (generate_demo_report fs) ->
  (row, col, title) = (0, 0, "Gradual Ramp")%nat \/
  (row, col, title) = (0, 1, "Load Spikes")%nat \/
  (row, col, title) = (1, 0, "Sustained Load")%nat.
Proof.
  report_cases fs; intros H; invert_elem H;
    injection H as -> -> -> _ _; auto.
Qed.

Lemma generate_demo_report_cells_witness :
  (0, 1, "Load Spikes")%nat = (0, 0, "Gradual Ramp")%nat \/
  (0, 1, "Load Spikes")%nat = (0, 1, "Load Spikes")%nat \/
  (0, 1, "Load Spikes")%nat = (1, 0, "Sustained Load")%nat.
Proof.
  apply (generate_demo_report_cells only_scenario2 0 1 "Load Spikes"
           (1000 # 100) [1000 # 100]).
  rewrite report_with_two_files_missing. cbn [effects fst].
  rewrite !elem_of_app, !elem_of_cons. auto 10.
Defined.

(** ** Scenarios whose load cannot be started *)

Lemma stable_unsignalled pid : stable (unsignalled pid).
Proof.
  intros w b (p & Hp & Hs). unfold unsignalled.
  destruct b as [q t|q]; simpl; destruct (procs w !! q) as [p'|] eqn:E; eauto.
  - destruct (turn p' t) as [p'' es] eqn:Et. simpl.
    destruct (decide (q = pid)) as [->|Hne].
    + rewrite lookup_insert_eq. eexists; split; [reflexivity|].
      assert (p' = p) as -> by congruence.
      pose proof (turn_sigterm p t) as H. rewrite Et in H. simpl in H. congruence.
    + rewrite lookup_insert_ne by exact Hne. eauto.
  - destruct (p_sigterm p') eqn:Esig; simpl; eauto.
    destruct (decide (q = pid)) as [->|Hne]; [congruence|].
    rewrite lookup_insert_ne by exact Hne. eauto.
Qed.

Lemma spawn_monitor_unsignalled argv : p_sigterm (spawn_monitor argv) = false.
Proof.
  unfold spawn_monitor.
  destruct argv as [|a0 [|a1 [|a2 [|a3 [|a4 [|a5 [|a6 [|a7 l]]]]]]]]; try reflexivity.
  destruct (Py.int a6); try reflexivity.
  destruct (_ && _); reflexivity.
Qed.

Section FailingLoad.

Variable env : Env.

Hypothesis loads_fail : forall n, load_reply env n = SpawnFails.

Lemma raising_bind_now {A B : Type} P (m : prog A) e Q (k : A -> prog B) :
  raising env P m e Q -> raising env P (pbind m k) e Q.
Proof.
  intros Hm w Hw. destruct (Hm w Hw) as (w' & E & H).
  exists w'. split; [|exact H]. unfold pbind. rewrite E. reflexivity.
Qed.

Lemma raising_bind_later {A B : Type} P (m : prog A) Q (k : A -> prog B) e R :
  triple env P m Q -> (forall a, raising env (Q a) (k a) e R) ->
  raising env P (pbind m k) e R.
Proof.
  intros Hm Hk w Hw. destruct (Hm w Hw) as (a & w1 & E1 & H1).
  destruct (Hk a w1 H1) as (w2 & E2 & H2).
  exists w2. split; [|exact H2]. unfold pbind. rewrite E1. exact E2.
Qed.

Lemma subprocess_run_fails t n I argv :
  stable I ->
  raising env (holds t n I) (subprocess_run argv) FileNotFoundError
          (holds (t ++ [Exec argv]) n I).
Proof.
  intros HI w Hw. exists (log (enter env w) [Main (Exec argv)]). split.
  - unfold subprocess_run. rewrite loads_fail. reflexivity.
  - apply (log_holds t n I _ [Exec argv]), enter_holds; assumption.
Qed.

Lemma popen_unsignalled t n I argv :
  stable I ->
  triple env (holds t n I) (popen argv)
         (fun pid w => pid = n /\ holds (t ++ [Popen n argv]) (S n) (unsignalled n) w).
Proof.
  intros HI w Hw. eexists _, _. split; [reflexivity|].
  destruct (enter_holds env t n I w HI Hw) as (Ht & Hn & _).
  split; [exact Hn|].
  unfold holds. cbn [trace next_pid procs]. rewrite main_events_app, Ht, Hn.
  repeat split. unfold unsignalled. rewrite lookup_insert_eq.
  eexists. split; [reflexivity | apply spawn_monitor_unsignalled].
Qed.

Lemma run_scenario_fails t n I k self argv :
  stable I ->
  load_argv k (app_url self) = Some argv ->
  raising env (holds t n I) (run_scenario k self) FileNotFoundError
          (holds (t ++ scenario_start k self (executable env) (script env) n ++ [Exec argv])
                 (S n) (unsignalled n)).
Proof.
  intros HI Hargv. unfold run_scenario, scenario_start.
  eapply raising_bind_later; [apply print_rule, HI|]. intros [].
  eapply raising_bind_later; [apply print_rule, HI|]. intros [].
  eapply raising_bind_later; [apply print_rule, HI|]. intros [].
  eapply raising_bind_later; [apply print_rule, HI|]. intros [].
  eapply raising_bind_later; [apply popen_unsignalled, HI|]. intros pid.
  intros w [-> Hw]. revert w Hw.
  eapply raising_bind_later; [apply print_rule, stable_unsignalled|]. intros [].
  apply raising_bind_now. unfold load_phase. rewrite Hargv.
  intros w Hw.
  destruct (subprocess_run_fails _ _ _ argv (stable_unsignalled n) w Hw) as (w' & E & H).
  exists w'. split; [exact E|].
  rewrite <- ?app_assoc in H. simpl in H. rewrite <- ?app_assoc. simpl. exact H.
Qed.

End FailingLoad.

(** X8. A scenario has no [finally]: when the load generator cannot be started
    ([subprocess.run] raises FileNotFoundError), the scenario raises it too,
    [terminate] is never called, and the monitor child is left without a
    signal. *)
Theorem scenario_leaves_monitor_when_load_fails (env : Env) (k : scenario_id)
    (self : AutoscalingDemo) (argv : list string) (w : world) :
  (forall n, load_reply env n = SpawnFails) ->
  load_argv k (app_url self) = Some argv ->
  exists w',
    scenario k self env w = (Raise FileNotFoundError, w') /\
    main_events (trace w')
    = main_events (trace w)
        ++ scenario_start k self (executable env) (script env) (next_pid w)
        ++ [Exec argv] /\
    unsignalled (next_pid w) (procs w').
Proof.
  intros Hfail Hargv. rewrite scenario_unfold.
  destruct (run_scenario_fails env Hfail _ _ _ k self argv stable_true Hargv w
              (holds_start w)) as (w' & E & Ht & _ & Hu).
  exists w'. auto.
Qed.

Lemma scenario_leaves_monitor_when_load_fails_witness :
  exists w',
    scenario S3 (new_demo "http://app" None) no_python_env init_world
    = (Raise FileNotFoundError, w') /\
    main_events (trace w')
    = main_events (trace init_world)
        ++ scenario_start S3 (new_demo "http://app" None) (executable no_python_env)
             (script no_python_env) (next_pid init_world)
        ++ [Exec ["python"; "load_generator.py"; "--url"; "http://app";
                  "--test-type"; "constant"; "--rps"; "80"; "--duration"; "300";
                  "--output"; "scenario3_results.json"; "--charts"]] /\
    unsignalled (next_pid init_world) (procs w').
Proof.
  apply (scenario_leaves_monitor_when_load_fails no_python_env S3
           (new_demo "http://app" None)).
  - intros n. reflexivity.
  - reflexivity.
Defined.

(** X9. In the command [all] the same failure in scenario 1 ends the whole run:
    the main process raises after the header and the start of scenario 1;
    no cooldown, no later scenario and no report follow. *)
Theorem main_all_stops_at_failing_load (env : Env) (args : Args) :
  command args = "all" ->
  (forall n, load_reply env n = SpawnFails) ->
  exists w' argv,
    load_argv S1 (url args) = Some argv /\
    main args env init_world = (Raise FileNotFoundError, w') /\
    main_events (trace w')
    = all_header
        ++ scenario_start S1 (new_demo (url args) (kubectl_context_arg args))
             (executable env) (script env) 0
        ++ [Exec argv] /\
    unsignalled 0 (procs w').
Proof.
  intros Hcmd Hfail.
  set (demo := new_demo (url args) (kubectl_context_arg args)).
  assert (app_url demo = url args) as Hurl
    by (unfold demo, new_demo; reflexivity).
  destruct (load_argv S1 (url args)) as [argv|] eqn:Hargv; [|discriminate].
  assert (raising env (holds [] 0%nat (fun _ => True)) (main args) FileNotFoundError
            (holds (all_header
                      ++ scenario_start S1 demo (executable env) (script env) 0
                      ++ [Exec argv]) 1%nat (unsignalled 0))) as Hmain.
  { unfold main. rewrite Hcmd. cbn [String.eqb Ascii.eqb Bool.eqb]. fold demo.
    eapply raising_bind_later; [apply print_rule, stable_true|]. intros [].
    eapply raising_bind_later; [apply print_rule, stable_true|]. intros [].
    apply raising_bind_now.
    intros w Hw.
    destruct (run_scenario_fails env Hfail _ _ _ S1 demo argv stable_true
                (eq_trans (f_equal _ Hurl) Hargv) w Hw) as (w' & E & H).
    exists w'. split; [exact E|].
    unfold all_header. rewrite <- ?app_assoc in H. simpl in H.
    rewrite <- ?app_assoc. simpl. exact H. }
  destruct (Hmain init_world) as (w' & E & Ht & _ & Hu); [repeat split|].
  exists w', argv. auto.
Qed.

Lemma main_all_stops_at_failing_load_witness :
  exists w' argv,
    load_argv S1 (url all_args) = Some argv /\
    main all_args no_python_env init_world = (Raise FileNotFoundError, w') /\
    main_events (trace w')
    = all_header
        ++ scenario_start S1 (new_demo (url all_args) (kubectl_context_arg all_args))
             (executable no_python_env) (script no_python_env) 0
        ++ [Exec argv] /\
    unsignalled 0 (procs w').
Proof.
  apply (main_all_stops_at_failing_load no_python_env all_args).
  - reflexivity.
  - intros n. reflexivity.
Defined.

(** ** The monitors at the end of the command [all] *)

Lemma stable_and I J : stable I -> stable J -> stable (fun ps => I ps /\ J ps).
Proof. intros HI HJ w b [Hi Hj]. split; [apply HI | apply HJ]; assumption. Qed.

Lemma framed_and n I J : framed n I -> framed n J -> framed n (fun ps => I ps /\ J ps).
Proof. intros HI HJ ps p [Hi Hj]. split; [apply HI | apply HJ]; assumption. Qed.

Lemma framed_true n : framed n (fun _ => True).
Proof. intros ps p _. exact I. Qed.

Lemma framed_stopping n q : q <> n -> framed n (stopping q).
Proof.
  intros Hne ps p (p' & Hp & Hs). exists p'. split; [|exact Hs].
  rewrite lookup_insert_ne by congruence. exact Hp.
Qed.

Section AllMonitors.

Variable env : Env.

Hypothesis loads_exit : forall n, exists code out, load_reply env n = Exited code out.
Hypothesis posts_settle :
  forall i, (i < request_count)%nat -> post_reply env i <> NeverSettles.

Lemma popen_frame t n F argv :
  stable F -> framed n F ->
  triple env (holds t n F) (popen argv)
         (fun pid w => pid = n /\
                       holds (t ++ [Popen n argv]) (S n)
                             (fun ps => has_proc n ps /\ F ps) w).
Proof.
  intros HF Hfr w Hw. eexists _, _. split; [reflexivity|].
  destruct (enter_holds env t n F w HF Hw) as (Ht & Hn & Hp).
  split; [exact Hn|].
  unfold holds. cbn [trace next_pid procs]. rewrite main_events_app, Ht, Hn.
  repeat split.
  - unfold has_proc. rewrite lookup_insert_eq. eauto.
  - apply Hfr. exact Hp.
Qed.

Lemma terminate_frame t n pid F :
  stable F -> framed pid F ->
  triple env (holds t n (fun ps => has_proc pid ps /\ F ps)) (terminate pid)
         (fun _ => holds (t ++ [Terminate pid]) n (fun ps => stopping pid ps /\ F ps)).
Proof.
  intros HF Hfr w Hw.
  pose proof (log_holds t n _ _ [Terminate pid]
                (enter_holds env t n _ w
                   (stable_and _ _ (stable_has_proc pid) HF) Hw)) as H1.
  unfold terminate. cbv zeta.
  change (map Main [Terminate pid]) with [Main (Terminate pid)] in H1.
  set (w1 := log (enter env w) [Main (Terminate pid)]) in *.
  destruct H1 as (Ht & Hn & [p Hp] & HFw). rewrite Hp.
  destruct (p_state p) eqn:Es;
    eexists tt, _; (split; [reflexivity|]); unfold holds;
    cbn [set_proc trace next_pid procs];
    (repeat split; [exact Ht | exact Hn | | ]); unfold stopping.
  1,3,5: rewrite lookup_insert_eq; eexists; split; [reflexivity | right; reflexivity].
  1-3: apply Hfr; exact HFw.
  - exists p. auto.
  - exact HFw.
Qed.

Lemma run_scenario_frame t n F k self :
  stable F -> framed n F ->
  triple env (holds t n F) (run_scenario k self)
         (fun _ => holds (t ++ scenario_events k self (executable env) (script env) n)
                         (S n) (fun ps => stopping n ps /\ F ps)).
Proof.
  intros HF Hfr. unfold run_scenario, scenario_events.
  pose proof (stable_and _ _ (stable_has_proc n) HF) as HI.
  eapply hoare_bind; [apply print_rule, HF|]. intros [].
  eapply hoare_bind; [apply print_rule, HF|]. intros [].
  eapply hoare_bind; [apply print_rule, HF|]. intros [].
  eapply hoare_bind; [apply print_rule, HF|]. intros [].
  eapply hoare_bind; [apply popen_frame; [exact HF | exact Hfr]|]. intros pid.
  intros w [-> Hw]. revert w Hw.
  eapply hoare_bind; [apply print_rule, HI|]. intros [].
  eapply hoare_bind; [apply (load_phase_rule env loads_exit posts_settle), HI|]. intros [].
  eapply hoare_bind; [apply terminate_frame; [exact HF | exact Hfr]|]. intros [].
  eapply hoare_post;
    [apply print_rule, (stable_and _ _ (stable_stopping n) HF)|].
  intros [] w. rewrite <- !app_assoc. simpl. auto.
Qed.

End AllMonitors.

(** X10. At the end of the command [all] four monitor children have been
    started, and each of them has been sent SIGTERM or is dead: none is left
    running without a signal. *)
Theorem main_all_signals_every_monitor (env : Env) (args : Args) :
  command args = "all" ->
  (forall n, exists code out, load_reply env n = Exited code out) ->
  (forall i, (i < request_count)%nat -> post_reply env i <> NeverSettles) ->
  (forall filename, files env !! filename <> Some Broken) ->
  exists w',
    main args env init_world = (Ret tt, w') /\
    next_pid w' = 4%nat /\
    forall pid, (pid < 4)%nat -> stopping pid (procs w').
Proof.
  intros Hcmd Hload Hpost Hfiles.
  set (demo := new_demo (url args) (kubectl_context_arg args)).
  set (F1 := fun ps : gmap nat proc => stopping 0 ps /\ True).
  set (F2 := fun ps : gmap nat proc => stopping 1 ps /\ F1 ps).
  set (F3 := fun ps : gmap nat proc => stopping 2 ps /\ F2 ps).
  set (F4 := fun ps : gmap nat proc => stopping 3 ps /\ F3 ps).
  assert (stable F1) as S1' by (apply stable_and; [apply stable_stopping | apply stable_true]).
  assert (stable F2) as S2' by (apply stable_and; [apply stable_stopping | exact S1']).
  assert (stable F3) as S3' by (apply stable_and; [apply stable_stopping | exact S2']).
  assert (stable F4) as S4' by (apply stable_and; [apply stable_stopping | exact S3']).
  assert (framed 1 F1) as R1
    by (apply framed_and; [apply framed_stopping; lia | apply framed_true]).
  assert (framed 2 F2) as R2.
  { apply framed_and; [apply framed_stopping; lia|].
    apply framed_and; [apply framed_stopping; lia | apply framed_true]. }
  assert (framed 3 F3) as R3.
  { apply framed_and; [apply framed_stopping; lia|].
    apply framed_and; [apply framed_stopping; lia|].
    apply framed_and; [apply framed_stopping; lia | apply framed_true]. }
  assert (exists t, triple env (holds [] 0%nat (fun _ => True)) (main args)
                      (fun _ => holds t 4%nat F4)) as [t Hmain].
  { eexists. unfold main. rewrite Hcmd. cbn [String.eqb Ascii.eqb Bool.eqb]. fold demo.
    pose proof (fun t n F k => run_scenario_frame env Hload Hpost t n F k demo) as Hsc.
    eapply hoare_bind; [apply print_rule, stable_true|]. intros [].
    eapply hoare_bind; [apply print_rule, stable_true|]. intros [].
    eapply hoare_bind;
      [apply (Hsc _ 0%nat (fun _ => True) S1); [apply stable_true | apply framed_true]|].
    intros [].
    eapply hoare_bind; [apply (sleep_rule env _ _ F1), S1'|]. intros [].
    eapply hoare_bind; [apply (Hsc _ 1%nat F1 S2); assumption|]. intros [].
    eapply hoare_bind; [apply (sleep_rule env _ _ F2), S2'|]. intros [].
    eapply hoare_bind; [apply (Hsc _ 2%nat F2 S3); assumption|]. intros [].
    eapply hoare_bind; [apply (sleep_rule env _ _ F3), S3'|]. intros [].
    eapply hoare_bind; [apply (Hsc _ 3%nat F3 S4); assumption|]. intros [].
    eapply hoare_post.
    - eapply (run_io_rule env _ _ F4); [exact S4'|].
      apply generate_demo_report_trace. exact Hfiles.
    - intros [] w H. exact H. }
  destruct (Hmain init_world) as ([] & w' & Erun & _ & Hn & H3 & H2 & H1 & H0 & _);
    [repeat split|].
  exists w'. repeat split; try assumption.
  intros pid Hpid.
  destruct pid as [|[|[|[|pid]]]]; try assumption. lia.
Qed.

Lemma main_all_signals_every_monitor_witness :
  exists w',
    main all_args quiet_env init_world = (Ret tt, w') /\
    next_pid w' = 4%nat /\
    forall pid, (pid < 4)%nat -> stopping pid (procs w').
Proof.
  apply (main_all_signals_every_monitor quiet_env all_args).
  - reflexivity.
  - intros n. exists 0, "". reflexivity.
  - intros i _. discriminate.
  - intros filename. simpl. rewrite lookup_empty. discriminate.
Defined.

(** ** The context of the monitor child *)

(** X11. The command line of the monitor child carries the URL and the duration
    but no [--kubectl-context]: whatever context the scenario's own demo
    object has, the child that polls the cluster runs plain [kubectl]. *)
Theorem monitor_child_ignores_context (env : Env) (k : scenario_id)
    (self : AutoscalingDemo) (w : world) :
  option_like (app_url self) = false ->
  exists p,
    (popen_monitor k (app_url self) env w).1 = Ret (next_pid w) /\
    procs (popen_monitor k (app_url self) env w).2 !! next_pid w = Some p /\
    p_state p = Starting /\
    p_demo p = new_demo (app_url self) None /\
    kubectl_cmd (p_demo p) = ["kubectl"].
Proof.
  intros Hu. unfold popen_monitor, popen. cbn [fst snd procs].
  assert (next_pid (enter env w) = next_pid w) as ->
    by (unfold enter; cbn [next_pid]; apply bg_run_next_pid).
  rewrite lookup_insert_eq. eexists. split; [reflexivity|]. split; [reflexivity|].
  destruct int_durations as (E600 & E480 & E300 & E180).
  destruct k; unfold spawn_monitor; cbn; rewrite ?E600, ?E480, ?E300, ?E180, Hu; cbn;
    repeat split.
Qed.

Lemma monitor_child_ignores_context_witness :
  exists p,
    (popen_monitor S1 (app_url (new_demo "http://app" (Some "prod"))) quiet_env
       init_world).1 = Ret (next_pid init_world) /\
    procs (popen_monitor S1 (app_url (new_demo "http://app" (Some "prod"))) quiet_env
             init_world).2 !! next_pid init_world = Some p /\
    p_state p = Starting /\
    p_demo p = new_demo (app_url (new_demo "http://app" (Some "prod"))) None /\
    kubectl_cmd (p_demo p) = ["kubectl"].
Proof.
  apply (monitor_child_ignores_context quiet_env S1
           (new_demo "http://app" (Some "prod")) init_world).
  reflexivity.
Defined.

(** * Properties of the web service *)

Module AppFacts.

Import App.

Lemma count_ev_app kind a b :
  count_ev kind (a ++ b) = (count_ev kind a + count_ev kind b)%nat.
Proof. induction a as [|e a IH]; simpl; [reflexivity | rewrite IH; lia]. Qed.

(** What a call of [get_connection] can give. *)
Lemma get_connection_spec tries :
  exists es,
    (get_connection tries = (es, Ok true) /\ count_ev is_inc es = 1%nat
     \/ get_connection tries = (es, Err DbError) /\ count_ev is_inc es = 0%nat
     \/ get_connection tries = (es, Err OtherExc) /\ count_ev is_inc es = 0%nat)
    /\ count_ev is_dec es = 0%nat
    /\ count_ev is_commit es = 0%nat
    /\ count_ev is_rollback es = 0%nat
    /\ count_ev is_execute es = 0%nat.
Proof.
  unfold get_connection. cbn [connect_loop Nat.eqb Nat.sub].
  destruct (tries 0%nat); [| destruct (tries 1%nat); [| destruct (tries 2%nat) |] |];
    eexists; (split; [|repeat split]); cbn; auto.
Qed.

(** X12. [get_connection] tries at most three times and sleeps at most three
    seconds in all; it never returns [None]; the gauge of the active
    connections is raised once when a connection is returned and not at all
    when the call raises. *)
Theorem get_connection_bounded (tries : nat -> conn_try) :
  exists es r,
    get_connection tries = (es, r) /\
    (count_ev is_connect es <= 3)%nat /\
    0 <= slept es <= 3 /\
    r <> Ok false /\
    count_ev is_inc es = (match r with Ok _ => 1 | Err _ => 0 end)%nat /\
    count_ev is_dec es = 0%nat.
Proof.
  unfold get_connection. cbn [connect_loop Nat.eqb Nat.sub].
  destruct (tries 0%nat); [| destruct (tries 1%nat); [| destruct (tries 2%nat) |] |];
    eexists _, _; (split; [reflexivity|]); cbn; repeat split; try lia; discriminate.
Qed.

(** X13. The retries: while the attempts fail with a database error, attempt i
    is followed by a sleep of 2^i seconds; the first attempt that connects,
    if it is one of the three, ends the call; after a third failure the
    error is raised at once, without a third sleep. *)
Theorem get_connection_backoff (tries : nat -> conn_try) (k : nat) :
  (forall i, (i < k)%nat -> tries i = ConnFails) ->
  ((k < 3)%nat -> tries k = Connects ->
   get_connection tries
   = (flat_map (fun i => [Connect i; LogError "Database connection attempt failed";
                          TimeSleep (2 ^ Z.of_nat i)]) (seq 0 k)
        ++ [Connect k; GaugeInc],
      Ok true))
  /\ ((3 <= k)%nat ->
      get_connection tries
      = ([Connect 0; LogError "Database connection attempt failed"; TimeSleep 1;
          Connect 1; LogError "Database connection attempt failed"; TimeSleep 2;
          Connect 2; LogError "Database connection attempt failed"],
         Err DbError)).
Proof.
  intros Hfail. split.
  - intros Hk Hok. unfold get_connection. cbn [connect_loop Nat.eqb Nat.sub].
    destruct k as [|[|[|k]]]; try lia.
    + rewrite Hok. reflexivity.
    + rewrite (Hfail 0%nat) by lia. rewrite Hok. reflexivity.
    + rewrite (Hfail 0%nat), (Hfail 1%nat) by lia. rewrite Hok. reflexivity.
  - intros Hk. unfold get_connection. cbn [connect_loop Nat.eqb Nat.sub].
    rewrite (Hfail 0%nat), (Hfail 1%nat), (Hfail 2%nat) by lia. reflexivity.
Qed.

Lemma get_connection_backoff_witness :
  get_connection (fun i => if (i <? 2)%nat then ConnFails else Connects)
  = (flat_map (fun i => [Connect i; LogError "Database connection attempt failed";
                         TimeSleep (2 ^ Z.of_nat i)]) (seq 0 2)
       ++ [Connect 2; GaugeInc],
     Ok true).
Proof.
  apply (proj1 (get_connection_backoff
                  (fun i => if (i <? 2)%nat then ConnFails else Connects) 2
                  ltac:(intros i Hi; destruct i as [|[|i]]; [reflexivity | reflexivity | lia]))).
  - lia.
  - reflexivity.
Defined.

Ltac with_connection tries :=
  destruct (get_connection_spec tries)
    as (ces & [[Ecn Hinc]|[[Ecn Hinc]|[Ecn Hinc]]] & Hdec & Hcom & Hrb & Hex).

Ltac run_handler :=
  cbv [bind ret raise emit catch finally set_conn get_conn connect cursor execute
       commit rollback_if_conn close_connection get_json];
  repeat match goal with
         | E : get_connection _ = _ |- _ => rewrite E
         end.

Ltac count_up :=
  rewrite ?count_ev_app; cbn [count_ev is_inc is_dec is_commit is_rollback is_execute
                              is_connect Nat.add];
  repeat match goal with
         | H : count_ev _ _ = _ |- _ => rewrite H
         end.

(** X14. [get_task] never raises and answers 200, 404 or 500; on every path the
    gauge of the active connections is lowered as often as it was raised. *)
Theorem get_task_answers (task_id : Z) (tries : nat -> conn_try) (q : qres)
    (c0 : cvar) :
  exists es resp c,
    get_task task_id tries q c0 = (es, Ok resp, c) /\
    (resp.2 = 200 \/ resp.2 = 404 \/ resp.2 = 500) /\
    count_ev is_inc es = count_ev is_dec es /\
    (resp.2 = 200 ->
     exists task rows n, q = Done (task :: rows) n /\ resp.1 = RTask task).
Proof.
  unfold get_task. with_connection tries; run_handler.
  - destruct q as [[|task rows] n|]; cbn.
    + eexists _, _, _. split; [reflexivity|]. cbn. repeat split; auto.
      * count_up. reflexivity.
      * discriminate.
    + destruct (dict_truthy task) eqn:Et; cbn;
        (eexists _, _, _; split; [reflexivity|]); cbn; repeat split; auto;
        try (count_up; reflexivity); try discriminate.
      intros _. eauto.
    + eexists _, _, _. split; [reflexivity|]. cbn. repeat split; auto.
      * count_up. reflexivity.
      * discriminate.
  - eexists _, _, _. split; [reflexivity|]. cbn. repeat split; auto.
    + count_up. reflexivity.
    + discriminate.
  - eexists _, _, _. split; [reflexivity|]. cbn. repeat split; auto.
    + count_up. reflexivity.
    + discriminate.
Qed.

Ltac answer :=
  cbn; eexists _, _, _; (split; [reflexivity|]); cbn;
  repeat split; auto; try (count_up; reflexivity); try discriminate; try lia.

(** X15. [delete_task] never raises and answers 204, 404 or 500, with the gauge
    balanced. It answers 204 only after a commit; when no row was deleted it
    answers 404 and neither commits nor rolls back. *)
Theorem delete_task_answers (task_id : Z) (tries : nat -> conn_try) (q : qres)
    (commit_ok : bool) (c0 : cvar) :
  exists es resp c,
    delete_task task_id tries q commit_ok c0 = (es, Ok resp, c) /\
    (resp.2 = 204 \/ resp.2 = 404 \/ resp.2 = 500) /\
    count_ev is_inc es = count_ev is_dec es /\
    (resp.2 = 204 -> count_ev is_commit es = 1%nat /\ count_ev is_rollback es = 0%nat) /\
    (resp.2 = 404 -> count_ev is_commit es = 0%nat /\ count_ev is_rollback es = 0%nat) /\
    (forall rows, q = Done rows 0 -> (get_connection tries).2 = Ok true -> resp.2 = 404).
Proof.
  unfold delete_task. with_connection tries; run_handler.
  - destruct q as [rows [|n]|]; [| destruct commit_ok |]; answer.
    all: try (intros rows' Hq; discriminate Hq).
  - answer; intros rows _ H; discriminate H.
  - answer; intros rows _ H; discriminate H.
Qed.

(** X16. [health_check] never raises and answers 200 or 503. When the connection
    is there but the test query fails, the connection is not closed: the
    gauge stays raised. *)
Theorem health_check_answers (tries : nat -> conn_try) (q : qres) (c0 : cvar) :
  exists es resp c,
    health_check tries q c0 = (es, Ok resp, c) /\
    (resp = (RHealthy, 200) \/ resp = (RUnhealthy, 503)) /\
    (resp.2 = 200 -> count_ev is_inc es = count_ev is_dec es) /\
    ((get_connection tries).2 = Ok true -> q = QFails ->
     resp.2 = 503 /\ count_ev is_inc es = 1%nat /\ count_ev is_dec es = 0%nat).
Proof.
  unfold health_check. with_connection tries; run_handler.
  - destruct q as [rows n|]; answer.
  - answer; intros H; discriminate H.
  - answer; intros H; discriminate H.
Qed.

(** X17. [create_task] has no [conn = None] before its [try]: for a body without
    a title the answer 400 is prepared, but the [finally] clause then reads
    [conn], which was never assigned, and the handler raises
    UnboundLocalError before anything was done. *)
Theorem create_task_bad_request_is_lost (body : json_in) (tries : nat -> conn_try)
    (q : qres) (commit_ok : bool) :
  no_title body ->
  create_task body tries q commit_ok Unbound = ([], Err UnboundLocalError, Unbound).
Proof.
  intros Hno. unfold create_task. destruct body as [d| |data]; run_handler; try reflexivity.
  unfold has_key. simpl in Hno. rewrite Hno, orb_true_r. reflexivity.
Qed.

Lemma create_task_bad_request_is_lost_witness :
  create_task (JsonObj {[ "description" := JStr "no title here" ]})
    (fun _ => Connects) (Done [] 0) true Unbound
  = ([], Err UnboundLocalError, Unbound).
Proof.
  apply (create_task_bad_request_is_lost
           (JsonObj {[ "description" := JStr "no title here" ]})).
  simpl. apply lookup_singleton_ne. discriminate.
Defined.

(** X18. [create_task] answers only when the body has a title and the database
    connects, and then with 201 or 500 and the gauge balanced; in every
    other case it raises UnboundLocalError. It never answers 400. *)
Theorem create_task_answers (body : json_in) (tries : nat -> conn_try)
    (q : qres) (commit_ok : bool) :
  exists es r c,
    create_task body tries q commit_ok Unbound = (es, r, c) /\
    ((exists resp,
         r = Ok resp /\ (resp.2 = 201 \/ resp.2 = 500) /\
         count_ev is_inc es = count_ev is_dec es /\
         (get_connection tries).2 = Ok true /\
         (resp.2 = 201 -> count_ev is_commit es = 1%nat /\ commit_ok = true))
     \/ (r = Err UnboundLocalError /\ count_ev is_dec es = 0%nat /\
         (no_title body \/ (get_connection tries).2 <> Ok true))).
Proof.
  unfold create_task.
  destruct body as [d| |data]; [| |destruct (data !! "title") as [v|] eqn:Etitle].
  1,2,4: run_handler; unfold has_key; rewrite ?Etitle, ?orb_true_r; cbn;
    eexists _, _, _; (split; [reflexivity|]); right; cbn; auto.
  destruct (dict_truthy data) eqn:Etruthy.
  2: { assert (data = ∅) as ->.
       { unfold dict_truthy in Etruthy. apply negb_false_iff in Etruthy.
         apply bool_decide_eq_true in Etruthy. exact Etruthy. }
       rewrite lookup_empty in Etitle. discriminate. }
  with_connection tries; run_handler; unfold has_key; rewrite Etitle, Etruthy; cbn;
    rewrite ?Ecn.
  - destruct q as [[|task rows] n|]; destruct commit_ok;
      try destruct (task !! "id") eqn:Eid;
      cbn; rewrite ?Eid; cbn; eexists _, _, _; (split; [reflexivity|]); left; eexists;
      (split; [reflexivity|]); cbn; repeat split; auto;
      try (count_up; reflexivity); try discriminate; try lia.
  - cbn. eexists _, _, _. split; [reflexivity|]. right. cbn.
    repeat split; try (count_up; reflexivity). right. discriminate.
  - cbn. eexists _, _, _. split; [reflexivity|]. right. cbn.
    repeat split; try (count_up; reflexivity). right. discriminate.
Qed.

Lemma collect_updates_none (data : gmap string jval) :
  (forall k, k ∈ updatable -> data !! k = None) ->
  collect_updates data updatable = ([], []).
Proof.
  intros Hnone. unfold updatable in *. cbn.
  rewrite (Hnone "title"), (Hnone "description"), (Hnone "status");
    [reflexivity| | |]; rewrite !elem_of_cons; auto.
Qed.

(** X19. The statement that [update_task] builds: one value per assignment, as
    many parameters as the text has placeholders, and only the three columns
    title, description and status, each when the body has the key. No other
    key of the body reaches the text. *)
Theorem update_query_shape (data : gmap string jval) (task_id : Z) :
  let fs := (collect_updates data updatable).1 in
  let vs := (collect_updates data updatable).2 in
  length vs = length fs /\
  count_char "%" (update_sql (fs ++ ["updated_at = CURRENT_TIMESTAMP"]))
  = length (vs ++ [JNum task_id]) /\
  (forall f, f ∈ fs ->
     exists k, k ∈ updatable /\ f = k +:+ " = %s" /\ is_Some (data !! k)) /\
  (fs = [] <-> forall k, k ∈ updatable -> data !! k = None).
Proof.
  unfold updatable. cbn.
  destruct (data !! "title") as [t|] eqn:Et;
    destruct (data !! "description") as [d|] eqn:Ed;
    destruct (data !! "status") as [s|] eqn:Es; cbn;
    (split; [reflexivity|]); (split; [reflexivity|]); split.
  all: try (intros f Hf; rewrite ?elem_of_cons, elem_of_nil in Hf;
            repeat destruct Hf as [Hf|Hf]; try contradiction; subst f;
            first [ exists "title"; rewrite !elem_of_cons, Et; split; [auto|split; [reflexivity|eauto]]
                  | exists "description"; rewrite !elem_of_cons, Ed; split; [auto|split; [reflexivity|eauto]]
                  | exists "status"; rewrite !elem_of_cons, Es; split; [auto|split; [reflexivity|eauto]] ]).
  all: split; intros H; try discriminate H.
  all: try (intros k Hk; rewrite !elem_of_cons, elem_of_nil in Hk;
            repeat destruct Hk as [Hk|Hk]; try contradiction; subst k; assumption).
  all: try reflexivity.
  all: first [ specialize (H "title"); rewrite !elem_of_cons, Et in H; discriminate H; auto
             | specialize (H "description"); rewrite !elem_of_cons, Ed in H; discriminate H; auto
             | specialize (H "status"); rewrite !elem_of_cons, Es in H; discriminate H; auto ].
Qed.

Arguments update_sql : simpl never.
Arguments collect_updates : simpl never.

Ltac close_up :=
  try match goal with H : _ \/ _ |- _ => destruct H as [H|H]; discriminate H end;
  try (count_up; cbn; lia);
  try discriminate.

(** X20. [update_task] never raises and answers 200, 400, 404 or 500, with the
    gauge balanced. It answers 200 only after both statements and one
    commit; a 400 or 404 leaves the database without commit or rollback; and
    a body that has none of the three columns is never answered with 200 and
    never reaches the UPDATE. *)
Theorem update_task_answers (task_id : Z) (body : json_in) (tries : nat -> conn_try)
    (q_exists q_update : qres) (commit_ok : bool) (c0 : cvar) :
  exists es resp c,
    update_task task_id body tries q_exists q_update commit_ok c0 = (es, Ok resp, c) /\
    (resp.2 = 200 \/ resp.2 = 400 \/ resp.2 = 404 \/ resp.2 = 500) /\
    count_ev is_inc es = count_ev is_dec es /\
    (resp.2 = 200 ->
     count_ev is_execute es = 2%nat /\ count_ev is_commit es = 1%nat /\
     count_ev is_rollback es = 0%nat) /\
    (resp.2 = 400 \/ resp.2 = 404 ->
     count_ev is_commit es = 0%nat /\ count_ev is_rollback es = 0%nat) /\
    (forall data, body = JsonObj data ->
       (forall k, k ∈ updatable -> data !! k = None) ->
       resp.2 <> 200 /\ (count_ev is_execute es <= 1)%nat).
Proof.
  unfold update_task.
  destruct body as [d| |data]; [| |destruct (dict_truthy data) eqn:Etruthy].
  1,2,4: run_handler; rewrite ?Etruthy; answer; close_up.
  with_connection tries; run_handler; rewrite Etruthy; cbn; rewrite ?Ecn.
  2,3: answer; close_up.
  destruct q_exists as [[|found rows] n|]; [|destruct (dict_truthy found) eqn:Efound|].
  1,3,4: cbn; rewrite ?Efound; answer; close_up.
  cbn. rewrite Efound. cbn.
  destruct (collect_updates data updatable) as [[|f fs] vs] eqn:Ecu.
  - answer; close_up.
  - destruct q_update as [[|task rows'] n'|]; destruct commit_ok; answer; close_up;
      match goal with
      | Hd : JsonObj _ = JsonObj _, Hn : forall k, _ -> _ |- _ =>
          injection Hd as <-; rewrite (collect_updates_none _ Hn) in Ecu; discriminate Ecu
      end.
Qed.

(** X21. [get_tasks] reads limit and offset before its [try]: a parameter that is
    no integer makes the handler raise ValueError before the database is
    touched, and no answer of the handler's own is given. *)
Theorem get_tasks_bad_number (args : gmap string string) (tries : nat -> conn_try)
    (q : qres) (c0 : cvar) :
  bad_number args "limit" \/ bad_number args "offset" ->
  get_tasks args tries q c0 = ([], Err ValueErr, c0).
Proof.
  unfold get_tasks, int_arg. intros [(s & Hs & Hbad)|(s & Hs & Hbad)].
  - rewrite Hs. destruct (Py.int s) as [z| | |] eqn:E; try reflexivity.
    destruct (Hbad z eq_refl).
  - rewrite Hs.
    assert (match Py.int s with Ret z => ret z | _ => raise ValueErr end
            = raise (A := Z) ValueErr) as ->.
    { destruct (Py.int s) as [z| | |] eqn:E; try reflexivity. destruct (Hbad z eq_refl). }
    destruct (args !! "limit") as [l|]; [destruct (Py.int l)|]; reflexivity.
Qed.

Lemma get_tasks_bad_number_witness :
  get_tasks {[ "limit" := "ten" ]} (fun _ => Connects) (Done [] 0) Unbound
  = ([], Err ValueErr, Unbound).
Proof.
  apply (get_tasks_bad_number {[ "limit" := "ten" ]}).
  left. exists "ten". split; [apply lookup_singleton_eq|].
  intros z. vm_compute. discriminate.
Defined.

(** X22. With limit and offset integers or absent, [get_tasks] never raises and
    answers 200 or 500 with the gauge balanced, after at most one statement
    and no commit. On a working database the answer is the rows of the
    query with their number, and limit and offset as given, 100 and 0 when
    absent. *)
Theorem get_tasks_answers (args : gmap string string) (tries : nat -> conn_try)
    (q : qres) (c0 : cvar) :
  ~ bad_number args "limit" -> ~ bad_number args "offset" ->
  exists es resp c,
    get_tasks args tries q c0 = (es, Ok resp, c) /\
    (resp.2 = 200 \/ resp.2 = 500) /\
    count_ev is_inc es = count_ev is_dec es /\
    (count_ev is_execute es <= 1)%nat /\ count_ev is_commit es = 0%nat /\
    (forall rows n, q = Done rows n -> (get_connection tries).2 = Ok true ->
       resp = (RTasks rows (length rows) (number_of args "limit" 100)
                 (number_of args "offset" 0), 200)).
Proof.
  intros Hl Ho.
  assert (forall key d, ~ bad_number args key ->
            int_arg args key d = ret (number_of args key d)) as Hint.
  { intros key d Hk. unfold int_arg, number_of.
    destruct (args !! key) as [s|] eqn:Es; [|reflexivity].
    destruct (Py.int s) as [z| | |] eqn:E; try reflexivity;
      destruct Hk; exists s; (split; [exact Es|]); intros z'; rewrite E; discriminate. }
  unfold get_tasks. rewrite (Hint _ _ Hl), (Hint _ _ Ho).
  set (limit := number_of args "limit" 100). set (offset := number_of args "offset" 0).
  with_connection tries; run_handler.
  - destruct (args !! "status") as [[|ch st]|]; destruct q as [rows n|]; answer; close_up;
      try (intros rows' n' Hq; discriminate Hq);
      intros rows' n' [= <- <-] _; reflexivity.
  - destruct (args !! "status") as [[|ch st]|]; answer; close_up;
      intros rows' n' _ H; discriminate H.
  - destruct (args !! "status") as [[|ch st]|]; answer; close_up;
      intros rows' n' _ H; discriminate H.
Qed.

Lemma get_tasks_answers_witness :
  exists es resp c,
    get_tasks ∅ (fun _ => Connects) (Done [] 0) Unbound = (es, Ok resp, c) /\
    (resp.2 = 200 \/ resp.2 = 500) /\
    count_ev is_inc es = count_ev is_dec es /\
    (count_ev is_execute es <= 1)%nat /\ count_ev is_commit es = 0%nat /\
    (forall rows n, Done [] 0 = Done rows n ->
       (get_connection (fun _ => Connects)).2 = Ok true ->
       resp = (RTasks rows (length rows) (number_of ∅ "limit" 100)
                 (number_of ∅ "offset" 0), 200)).
Proof.
  apply (get_tasks_answers ∅ (fun _ => Connects) (Done [] 0) Unbound);
    intros (s & Hs & _); rewrite lookup_empty in Hs; discriminate Hs.
Defined.

(** X23. An empty status parameter filters nothing: [get_tasks] does with it what
    it does without the parameter. *)
Theorem get_tasks_empty_status (args : gmap string string) (tries : nat -> conn_try)
    (q : qres) (c0 : cvar) :
  get_tasks (<["status" := ""]> args) tries q c0
  = get_tasks (delete "status" args) tries q c0.
Proof.
  unfold get_tasks, int_arg. simplify_map_eq. reflexivity.
Qed.



Ltac raised_again :=
  right; eexists; (split; [reflexivity|]); (split; [auto|]);
  (split; [count_up; reflexivity|]);
  first [left; reflexivity | right; count_up; reflexivity].

(** X25. [init_db] either returns after the two statements and one commit, or
    raises the exception of the step that failed, after one rollback when
    the connection was there; in both cases the gauge is balanced. *)
Theorem init_db_outcome (tries : nat -> conn_try) (q_table q_index : qres)
    (commit_ok : bool) (c0 : cvar) :
  exists es r c,
    init_db tries q_table q_index commit_ok c0 = (es, r, c) /\
    count_ev is_inc es = count_ev is_dec es /\
    ((r = Ok tt /\ count_ev is_execute es = 2%nat /\ count_ev is_commit es = 1%nat /\
      count_ev is_rollback es = 0%nat /\ commit_ok = true)
     \/ (exists e, r = Err e /\ (e = DbError \/ e = OtherExc) /\
         count_ev is_inc es = count_ev is_rollback es /\
         (commit_ok = false \/ count_ev is_commit es = 0%nat))).
Proof.
  unfold init_db. with_connection tries; run_handler.
  - destruct q_table as [rows n|]; [destruct q_index as [rows' n'|]; [destruct commit_ok|]|];
      cbn; eexists _, _, _; (split; [reflexivity|]); cbn;
      (split; [count_up; reflexivity|]);
      first [ left; repeat split; count_up; reflexivity | raised_again ].
  - cbn; eexists _, _, _; (split; [reflexivity|]); cbn;
      (split; [count_up; reflexivity|]); raised_again.
  - cbn; eexists _, _, _; (split; [reflexivity|]); cbn;
      (split; [count_up; reflexivity|]); raised_again.
Qed.

End AppFacts.
